(** * ConnectFood backend: proximity search and matching engine

    A shallow embedding of [src/main.py] and [src/schemas.py].

    Python floats are idealised as real numbers: [math.sin], [math.cos],
    [math.sqrt] and [math.atan2] are the functions of the real line, and
    [round] is decimal rounding with ties to even.  The document store is an
    explicit state threaded through the request handlers; an exception
    leaves the store as it was when it was raised.  The store is taken to
    be connected, and the successive results of [random.uniform(0.85, 1.0)]
    are an input [rng] of the matcher.

    The reals leave out the rounding of the floats.  For two antipodal
    points the exact [a] of [haversine_km] is 1; the floats can compute a
    value just above 1, and then [math.sqrt(1 - a)] raises [ValueError],
    which the model does not show. *)

From Stdlib Require Import Reals Lra Lia ZArith NArith Nnat List Bool String Ascii.
From Stdlib Require Import Sorting.Sorted Permutation.
Import ListNotations.

Open Scope R_scope.

(** ** Python numerics over the reals *)

Module PyNum.

Definition Rleb (x y : R) : bool := if Rle_dec x y then true else false.
Definition Rltb (x y : R) : bool := if Rlt_dec x y then true else false.
Definition Reqb (x y : R) : bool := if Req_dec_T x y then true else false.

(** [max(a, b)] and [min(a, b)] keep the first argument unless the second
    one is strictly better. *)
Definition py_max (a b : R) : R := if Rltb a b then b else a.
Definition py_min (a b : R) : R := if Rltb b a then b else a.

(** Nearest integer, ties to the even neighbour. *)
Definition round_half_even (x : R) : Z :=
  let f := Int_part x in
  let r := x - IZR f in
  if Rltb r (1 / 2) then f
  else if Rltb (1 / 2) r then (f + 1)%Z
  else if Z.even f then f else (f + 1)%Z.

(** [round(x, ndigits)] *)
Definition py_round (x : R) (ndigits : nat) : R :=
  IZR (round_half_even (x * 10 ^ ndigits)) / 10 ^ ndigits.

(** [math.radians] *)
Definition radians (x : R) : R := x * (PI / 180).

(** [math.atan2(y, x)] *)
Definition atan2 (y x : R) : R :=
  if Rltb 0 x then atan (y / x)
  else if Rltb x 0 then
    (if Rleb 0 y then atan (y / x) + PI else atan (y / x) - PI)
  else if Rltb 0 y then PI / 2
  else if Rltb y 0 then - (PI / 2)
  else 0.

(** [x or d] on an optional float: [None] and [0.0] are falsy. *)
Definition py_or (o : option R) (d : R) : R :=
  match o with
  | Some x => if Reqb x 0 then d else x
  | None => d
  end.

(** [doc.get(key, d)] on an optional field. *)
Definition get_default {A : Type} (o : option A) (d : A) : A :=
  match o with Some x => x | None => d end.

End PyNum.
Import PyNum.

(** ** Helpers *)

Definition haversine_km (lat1 lon1 lat2 lon2 : R) : R :=
  let R0 := 6371 in
  let phi1 := radians lat1 in
  let phi2 := radians lat2 in
  let dphi := radians (lat2 - lat1) in
  let dlambda := radians (lon2 - lon1) in
  let a := sin (dphi / 2) ^ 2 + cos phi1 * cos phi2 * sin (dlambda / 2) ^ 2 in
  let c := 2 * atan2 (sqrt a) (sqrt (1 - a)) in
  R0 * c.

(** The argument [a] of the two square roots, on its own. *)
Definition haversine_a (lat1 lon1 lat2 lon2 : R) : R :=
  sin (radians (lat2 - lat1) / 2) ^ 2
  + cos (radians lat1) * cos (radians lat2) * sin (radians (lon2 - lon1) / 2) ^ 2.

(** ** Strings and object ids *)

Module PyStr.

Definition lower_ascii (c : ascii) : ascii :=
  let n := nat_of_ascii c in
  if (65 <=? n)%nat && (n <=? 90)%nat then ascii_of_nat (n + 32) else c.

(** [str.lower] on ASCII text. *)
Fixpoint lower (s : string) : string :=
  match s with
  | EmptyString => EmptyString
  | String c s' => String (lower_ascii c) (lower s')
  end.

(** [x in xs] for a tuple of strings. *)
Definition str_in (x : string) (xs : list string) : bool :=
  existsb (String.eqb x) xs.

Definition is_hex_digit (c : ascii) : bool :=
  let n := nat_of_ascii c in
  ((48 <=? n)%nat && (n <=? 57)%nat)
  || ((97 <=? n)%nat && (n <=? 102)%nat)
  || ((65 <=? n)%nat && (n <=? 70)%nat).

Fixpoint all_hex (s : string) : bool :=
  match s with
  | EmptyString => true
  | String c s' => is_hex_digit c && all_hex s'
  end.

End PyStr.
Import PyStr.

(** [bson.ObjectId]: twelve bytes, written as 24 hexadecimal digits. *)
Inductive ObjectId : Type := Oid (hex : string).

Definition str (o : ObjectId) : string := let 'Oid h := o in h.

Definition ObjectId_eqb (a b : ObjectId) : bool := String.eqb (str a) (str b).

(** [ObjectId(s)] on a string: [None] stands for the [InvalidId] it raises. *)
Definition ObjectId_of_str (s : string) : option ObjectId :=
  if (String.length s =? 24)%nat && all_hex s then Some (Oid (lower s)) else None.

Definition hex_char (d : N) : ascii :=
  if (d <? 10)%N then ascii_of_N (48 + d) else ascii_of_N (87 + d).

Fixpoint hex_digits (k : nat) (n : N) : string :=
  match k with
  | O => EmptyString
  | S k' => hex_digits k' (n / 16)%N ++ String (hex_char (n mod 16)%N) EmptyString
  end.

(** ** Documents (schemas.py) *)

Module Account.
(** An [account] document as the handlers read it. *)
Record t : Type := {
  _id : ObjectId;
  role : string;
  is_active : bool;
  lat : option R;
  lng : option R
}.
End Account.

Module Listing.
(** A [listing] document; every field read with [.get] is optional. *)
Record t : Type := {
  _id : ObjectId;
  donor_id : option string;
  type : option string;
  quantity : option R;
  lat : option R;
  lng : option R;
  expires_at : option Z;
  status : option string
}.

Definition with_quantity (q : option R) (l : t) : t :=
  {| _id := _id l; donor_id := donor_id l; type := type l; quantity := q;
     lat := lat l; lng := lng l; expires_at := expires_at l; status := status l |}.
End Listing.

Module Match.
Inductive Status : Type := proposed | accepted | rejected | in_transit | delivered.

Record t : Type := {
  listing_id : string;
  donor_id : string;
  recipient_id : string;
  score : R;
  distance_km : R;
  route_eta_min : R;
  status : Status
}.

(** The field constraints of the model: [ge=0, le=1] on the score and
    [ge=0] on the distance and on the ETA. *)
Definition valid (m : t) : bool :=
  Rleb 0 (score m) && Rleb (score m) 1
  && Rleb 0 (distance_km m) && Rleb 0 (route_eta_min m).
End Match.

(** A stored match: [{"_id": mid, **m.model_dump()}]. *)
Record MatchDoc : Type := { _id : string; fields : Match.t }.

(** ** The document store and the handler monad *)

Record Store : Type := {
  listing : list Listing.t;
  account : list Account.t;
  match_ : list MatchDoc;
  minted : N
}.

Inductive Exn : Type :=
| HTTPException (status_code : nat) (detail : string)
| ValidationError.

Inductive Outcome (A : Type) : Type :=
| Return (a : A)
| Raise (e : Exn).
Arguments Return {A} a.
Arguments Raise {A} e.

Definition Handler (A : Type) : Type := Store -> Outcome A * Store.

Definition ret {A} (a : A) : Handler A := fun db => (Return a, db).
Definition raise {A} (e : Exn) : Handler A := fun db => (Raise e, db).
Definition bind {A B} (h : Handler A) (k : A -> Handler B) : Handler B :=
  fun db =>
    match h db with
    | (Return a, db') => k a db'
    | (Raise e, db') => (Raise e, db')
    end.
Definition lift {A} (o : Outcome A) : Handler A := fun db => (o, db).

Declare Scope handler_scope.
Delimit Scope handler_scope with handler.
Notation "x <- h ;; k" := (bind h (fun x => k))
  (at level 61, h at next level, right associativity) : handler_scope.

(** [db["listing"].find_one({"_id": oid})] *)
Definition find_one (db : Store) (oid : ObjectId) : option Listing.t :=
  find (fun l => ObjectId_eqb (Listing._id l) oid) (listing db).

(** [db["account"].find({"role": "recipient", "is_active": True})] *)
Definition find_recipients (db : Store) : list Account.t :=
  filter (fun a => String.eqb (Account.role a) "recipient" && Account.is_active a)
         (account db).

(** Modelled from the spec: [get_documents] of the absent [database] module,
    the collaborator's [fetch_all(collection) -> sequence of records]. *)
Definition get_documents_listing (db : Store) : list Listing.t := listing db.

(** Modelled from the spec: [create_document] of the absent [database]
    module, the collaborator's [create(collection, record) -> id]: the
    record is added to the collection under a newly minted id, which is
    returned as a string. *)
Definition create_document_match (m : Match.t) : Handler string :=
  fun db =>
    let mid := hex_digits 24 (minted db) in
    (Return mid,
     {| listing := listing db; account := account db;
        match_ := match_ db ++ [{| _id := mid; fields := m |}];
        minted := N.succ (minted db) |}).

(** ** Stable sort on a key, as [list.sort(key=...)] *)

Section Sort.
Context {A K : Type} (lt : K -> K -> bool) (key : A -> K).

(** [x] comes from the left of every element of [l]: it goes in front of
    the first element that is not strictly smaller. *)
Fixpoint insert_sorted (x : A) (l : list A) : list A :=
  match l with
  | [] => [x]
  | y :: l' => if lt (key y) (key x) then y :: insert_sorted x l' else x :: y :: l'
  end.

Definition list_sort (l : list A) : list A := fold_right insert_sorted [] l.

(** [a] may stand before [b]: [b] is not strictly smaller. *)
Definition not_after (a b : A) : Prop := lt (key b) (key a) = false.
End Sort.

(** [<] on pairs of floats, as Python compares tuples. *)
Definition tuple_lt (k1 k2 : R * R) : bool :=
  if Reqb (fst k1) (fst k2)
  then (if Reqb (snd k1) (snd k2) then false else Rltb (snd k1) (snd k2))
  else Rltb (fst k1) (fst k2).

(** ** Listings: [GET /api/listings] *)

Record NearbyItem : Type := {
  it : Listing.t;
  it_id : string;
  it_distance_km : R
}.

Record NearbyResponse : Type := { count : nat; items : list NearbyItem }.

Definition expired (l : Listing.t) (now : Z) : bool :=
  match Listing.expires_at l with
  | Some t => (t <? now)%Z
  | None => false
  end.

Fixpoint nearby_loop (lat lng radius_km : R) (now : Z)
    (docs : list Listing.t) (results : list NearbyItem) : list NearbyItem :=
  match docs with
  | [] => results
  | l :: rest =>
      let it_id := str (Listing._id l) in
      if expired l now then nearby_loop lat lng radius_km now rest results
      else
        let d := haversine_km lat lng (get_default (Listing.lat l) 0)
                                      (get_default (Listing.lng l) 0) in
        if Rleb d radius_km
           && match Listing.status l with
              | Some s => str_in s ["available"; "claimed"]%string
              | None => false
              end
        then nearby_loop lat lng radius_km now rest
               (results ++ [{| it := l; it_id := it_id; it_distance_km := py_round d 2 |}])
        else nearby_loop lat lng radius_km now rest results
  end.

Definition nearby_listings (lat lng radius_km : R) (now : Z) (db : Store)
  : NearbyResponse :=
  let items := get_documents_listing db in
  let results := nearby_loop lat lng radius_km now items [] in
  let results := list_sort Rltb it_distance_km results in
  {| count := List.length results; items := firstn 100 results |}.

(** ** Matching: [POST /api/match] *)

Record MatchRequest : Type := { req_listing_id : string }.

Definition not_found : Exn := HTTPException 404 "Listing not found".

(** [Match(...)]: the model is built only when its fields validate. *)
Definition Match_new (m : Match.t) : Outcome Match.t :=
  if Match.valid m then Return m else Raise ValidationError.

Definition listing_type_lower (l : Listing.t) : string :=
  lower (get_default (Listing.type l) ""%string).

Definition type_match (l : Listing.t) : R :=
  if str_in (listing_type_lower l) [listing_type_lower l] then 1 else 8 / 10.

(** The score before rounding and clamping. *)
Definition raw_score (dist type_match freshness_factor : R) : R :=
  py_max 0 (1 - dist / 20) * (7 / 10) + type_match * (2 / 10)
  + freshness_factor * (1 / 10).

Definition recipient_dist (lat lng : R) (r : Account.t) : R :=
  haversine_km lat lng (py_or (Account.lat r) 0) (py_or (Account.lng r) 0).

(** The keyword arguments handed to [Match(...)] in the body of the loop. *)
Definition match_fields (l : Listing.t) (lat lng : R) (r : Account.t)
    (freshness_factor : R) : Match.t :=
  let dist := recipient_dist lat lng r in
  let score := raw_score dist (type_match l) freshness_factor in
  let eta := py_max 5 (dist / 40 * 60) in
  {| Match.listing_id := str (Listing._id l);
     Match.donor_id := get_default (Listing.donor_id l) ""%string;
     Match.recipient_id := str (Account._id r);
     Match.score := py_min 1 (py_round score 3);
     Match.distance_km := py_round dist 2;
     Match.route_eta_min := py_round eta 1;
     Match.status := Match.proposed |}.

Definition match_for (l : Listing.t) (lat lng : R) (r : Account.t)
    (freshness_factor : R) : Outcome Match.t :=
  Match_new (match_fields l lat lng r freshness_factor).

(** The loop over the recipients; [rng i] is the value the [i]-th call of
    [random.uniform(0.85, 1.0)] returns. *)
Fixpoint match_loop (l : Listing.t) (lat lng : R) (recipients : list Account.t)
    (rng : nat -> R) (i : nat) (matches : list MatchDoc) : Handler (list MatchDoc) :=
  match recipients with
  | [] => ret matches
  | r :: rest =>
      (m <- lift (match_for l lat lng r (rng i)) ;;
       mid <- create_document_match m ;;
       match_loop l lat lng rest rng (S i) (matches ++ [{| _id := mid; fields := m |}])
      )%handler
  end.

Definition match_key (x : MatchDoc) : R * R :=
  (- Match.score (fields x), Match.distance_km (fields x)).

(** The handler. The two placeholder lookups that open it only read the
    listing collection and their results are overwritten, so they leave no
    trace here; [qty] is bound as in the source and not used afterwards. *)
Definition compute_match (req : MatchRequest) (rng : nat -> R) : Handler (list MatchDoc) :=
  match ObjectId_of_str (req_listing_id req) with
  | None => raise not_found
  | Some oid =>
      fun db =>
        match find_one db oid with
        | None => raise not_found db
        | Some l =>
            match find_recipients db with
            | [] => ret [] db
            | recipients =>
                let lat := get_default (Listing.lat l) 0 in
                let lng := get_default (Listing.lng l) 0 in
                let qty := get_default (Listing.quantity l) 1 in
                (matches <- match_loop l lat lng recipients rng 0 [] ;;
                 ret (firstn 5 (list_sort tuple_lt match_key matches)))%handler db
            end
        end
  end.

(** ** Vocabulary of the statements *)

(** The listing a request id resolves to, if any. *)
Definition resolve (db : Store) (listing_id : string) : option Listing.t :=
  match ObjectId_of_str listing_id with
  | Some oid => find_one db oid
  | None => None
  end.

Definition listing_lat (l : Listing.t) : R := get_default (Listing.lat l) 0.
Definition listing_lng (l : Listing.t) : R := get_default (Listing.lng l) 0.

(** The records one run of the loop writes: one per recipient, in order,
    with consecutive newly minted ids. *)
Fixpoint created_matches (l : Listing.t) (recipients : list Account.t)
    (rng : nat -> R) (i : nat) (n : N) : list MatchDoc :=
  match recipients with
  | [] => []
  | r :: rest =>
      {| _id := hex_digits 24 n;
         fields := match_fields l (listing_lat l) (listing_lng l) r (rng i) |}
      :: created_matches l rest rng (S i) (N.succ n)
  end.

(** The draws of [random.uniform(0.85, 1.0)] lie between its bounds. *)
Definition uniform_draws (rng : nat -> R) : Prop :=
  forall i, 85 / 100 <= rng i <= 1.

Definition with_matches (db : Store) (ms : list MatchDoc) (n : N) : Store :=
  {| listing := listing db; account := account db; match_ := ms; minted := n |}.

(** ** The composite score as the specification words it *)

Definition clamp01 (x : R) : R := Rmax 0 (Rmin 1 x).

Definition spec_score (dist type_match freshness_factor : R) : R :=
  py_round (clamp01 (Rmax 0 (1 - dist / 20) * (7 / 10) + type_match * (2 / 10)
                     + freshness_factor * (1 / 10))) 3.

(** The order of the response: higher score first, and among equal scores
    the smaller distance first. *)
Definition ranks_before (a b : MatchDoc) : Prop :=
  Match.score (fields b) < Match.score (fields a)
  \/ (Match.score (fields a) = Match.score (fields b)
      /\ Match.distance_km (fields a) <= Match.distance_km (fields b)).

(** Two listings that differ at most in their [quantity]. *)
Definition same_but_quantity (l1 l2 : Listing.t) : Prop :=
  Listing.with_quantity None l1 = Listing.with_quantity None l2.

(** The distance the search computes for a listing. *)
Definition search_dist (lat lng : R) (l : Listing.t) : R :=
  haversine_km lat lng (listing_lat l) (listing_lng l).

(** ** Sample data *)

Module Sample.

Definition bread_id : string := "64b7f0c2a1d3e4f5a6b7c8d9".

(** A listing at the origin. *)
Definition bread : Listing.t :=
  {| Listing._id := Oid bread_id;
     Listing.donor_id := Some "donor-1"%string;
     Listing.type := Some "Bread"%string;
     Listing.quantity := Some 12;
     Listing.lat := Some 0;
     Listing.lng := Some 0;
     Listing.expires_at := Some 1000%Z;
     Listing.status := Some "available"%string |}.

(** A listing on the equator, a little under one kilometre east of the
    origin. *)
Definition rice : Listing.t :=
  {| Listing._id := Oid "64b7f0c2a1d3e4f5a6b7c8da";
     Listing.donor_id := Some "donor-1"%string;
     Listing.type := Some "rice"%string;
     Listing.quantity := Some 3;
     Listing.lat := Some 0;
     Listing.lng := Some (897 / 100000);
     Listing.expires_at := None;
     Listing.status := Some "available"%string |}.

Definition shelter : Account.t :=
  {| Account._id := Oid "0123456789abcdef01234567";
     Account.role := "recipient";
     Account.is_active := true;
     Account.lat := Some 0;
     Account.lng := Some 0 |}.

Definition pantry : Account.t :=
  {| Account._id := Oid "0123456789abcdef01234568";
     Account.role := "recipient";
     Account.is_active := true;
     Account.lat := None;
     Account.lng := None |}.

Definition bakery : Account.t :=
  {| Account._id := Oid "0123456789abcdef01234569";
     Account.role := "donor";
     Account.is_active := true;
     Account.lat := Some 0;
     Account.lng := Some 0 |}.

Definition closed_kitchen : Account.t :=
  {| Account._id := Oid "0123456789abcdef0123456a";
     Account.role := "recipient";
     Account.is_active := false;
     Account.lat := Some 0;
     Account.lng := Some 0 |}.

(** A store with two active recipients. *)
Definition db : Store :=
  {| listing := [bread]; account := [bakery; shelter; closed_kitchen; pantry];
     match_ := []; minted := 0 |}.

(** The same store with a different quantity on the listing. *)
Definition db_more : Store :=
  {| listing := [Listing.with_quantity (Some 500) bread];
     account := [bakery; shelter; closed_kitchen; pantry];
     match_ := []; minted := 0 |}.

(** A store without any active recipient. *)
Definition db_quiet : Store :=
  {| listing := [bread]; account := [bakery; closed_kitchen];
     match_ := []; minted := 0 |}.

(** A store for the search. *)
Definition db_east : Store :=
  {| listing := [rice]; account := []; match_ := []; minted := 0 |}.

Definition req : MatchRequest := {| req_listing_id := bread_id |}.
Definition req_garbled : MatchRequest := {| req_listing_id := "not-an-id" |}.

(** Every draw is 0.9. *)
Definition rng : nat -> R := fun _ => 9 / 10.

(** The item the search returns for [rice] from the origin. *)
Definition rice_item : NearbyItem :=
  {| it := rice; it_id := "64b7f0c2a1d3e4f5a6b7c8da"; it_distance_km := 100 / 10 ^ 2 |}.

End Sample.

(** ** Vocabulary of the search *)

(** The test a listing passes to enter the results of the search. *)
Definition eligible (lat lng radius_km : R) (now : Z) (l : Listing.t) : bool :=
  negb (expired l now)
  && (Rleb (search_dist lat lng l) radius_km
      && match Listing.status l with
         | Some s => str_in s ["available"; "claimed"]%string
         | None => false
         end).

(** The copy of a listing the search appends to its results. *)
Definition item_of (lat lng : R) (l : Listing.t) : NearbyItem :=
  {| it := l; it_id := str (Listing._id l);
     it_distance_km := py_round (search_dist lat lng l) 2 |}.

(** ** Listings: [POST /api/listings] *)

Record CreateListingRequest : Type := {
  clr_donor_id : string;
  clr_title : string;
  clr_description : option string;
  clr_type : string;
  clr_quantity : R;
  clr_unit : string;
  clr_lat : R;
  clr_lng : R;
  clr_expires_in_minutes : option Z
}.

Inductive ListingError : Type := OverflowError | ListingValidationError.

(** Instants and durations are counted in microseconds, instants from the
    epoch. *)
Definition MINUTE : Z := 60000000.
Definition datetime_min : Z := (-62135596800000000)%Z.
Definition datetime_max : Z := 253402300799999999%Z.

(** [timedelta(minutes=m)]: the number of days is kept within nine digits. *)
Definition timedelta_minutes (m : Z) : option Z :=
  if ((-999999999 <=? m / 1440) && (m / 1440 <=? 999999999))%Z
  then Some (m * MINUTE)%Z else None.

(** [t + delta] on a datetime: the result stays within years 1 to 9999. *)
Definition datetime_add (t delta : Z) : option Z :=
  let r := (t + delta)%Z in
  if ((datetime_min <=? r) && (r <=? datetime_max))%Z then Some r else None.

(** [req.expires_in_minutes or 180] *)
Definition minutes_or_default (o : option Z) : Z :=
  match o with
  | Some m => if (m =? 0)%Z then 180%Z else m
  | None => 180%Z
  end.

(** The field constraints of [Listing]: [gt=0] on the quantity, the
    latitude within [-90, 90] and the longitude within [-180, 180]. *)
Definition Listing_valid (quantity lat lng : R) : bool :=
  Rltb 0 quantity && (Rleb (-90) lat && Rleb lat 90)
  && (Rleb (-180) lng && Rleb lng 180).

(** Modelled from the spec: [create_document] of the absent [database]
    module on the listing collection, the collaborator's
    [create(collection, record) -> id]; of the record the document keeps
    the fields the handlers read. *)
Definition create_document_listing (donor_id type : string) (quantity lat lng : R)
    (expires_at : Z) (status : string) (db : Store) : string * Store :=
  let lid := hex_digits 24 (minted db) in
  (lid,
   {| listing := listing db
                 ++ [{| Listing._id := Oid lid;
                        Listing.donor_id := Some donor_id;
                        Listing.type := Some type;
                        Listing.quantity := Some quantity;
                        Listing.lat := Some lat;
                        Listing.lng := Some lng;
                        Listing.expires_at := Some expires_at;
                        Listing.status := Some status |}];
      account := account db; match_ := match_ db;
      minted := N.succ (minted db) |}).

Definition create_listing (now : Z) (req : CreateListingRequest) (db : Store)
  : (ListingError + string) * Store :=
  match timedelta_minutes (minutes_or_default (clr_expires_in_minutes req)) with
  | None => (inl OverflowError, db)
  | Some delta =>
      match datetime_add now delta with
      | None => (inl OverflowError, db)
      | Some expires_at =>
          if Listing_valid (clr_quantity req) (clr_lat req) (clr_lng req)
          then
            let '(lid, db') :=
              create_document_listing (clr_donor_id req) (clr_type req)
                (clr_quantity req) (clr_lat req) (clr_lng req) expires_at
                "available" db in
            (inr lid, db')
          else (inl ListingValidationError, db)
      end
  end.

(** ** Matches: [GET /api/matches] *)

Section GetMatches.

(** The [created_at] stamp of a stored match, which the absent [database]
    module writes, and the successive values of [datetime.now]. *)
Variable created_at : MatchDoc -> option Z.
Variable clock : nat -> Z.

(** [m.get("donor_id") == user_id or m.get("recipient_id") == user_id] *)
Definition involves (user_id : string) (m : MatchDoc) : bool :=
  String.eqb (Match.donor_id (fields m)) user_id
  || String.eqb (Match.recipient_id (fields m)) user_id.

(** The sort keys, computed once per item in list order; the default of
    [.get] is evaluated for every item. *)
Fixpoint decorate (i : nat) (l : list MatchDoc) : list (Z * MatchDoc) :=
  match l with
  | [] => []
  | x :: rest => (get_default (created_at x) (clock i), x) :: decorate (S i) rest
  end.

(** [list.sort(key=..., reverse=True)]: the list is reversed, sorted and
    reversed again, which keeps equal keys in their original order. *)
Definition sort_reverse (l : list (Z * MatchDoc)) : list (Z * MatchDoc) :=
  rev (list_sort Z.ltb fst (rev l)).

Definition get_matches (user_id : option string) (db : Store) : list MatchDoc :=
  let items := match_ db in
  let items :=
    match user_id with
    | Some (String c u) => filter (involves (String c u)) items
    | Some EmptyString => items
    | None => items
    end in
  let items := map snd (sort_reverse (decorate 0 items)) in
  firstn 100 items.

End GetMatches.

(** ** The simulated freshness feed: [/ws/freshness/{listing_id}] *)

Record Sensor : Type := { freshness : Z; temp_c : R; humidity : Z }.

(** What the random generator returns: the three initial values and the
    drifts of the successive rounds. *)
Record SensorDraws : Type := {
  freshness0 : Z;
  temp0 : R;
  humidity0 : Z;
  freshness_drift : nat -> Z;
  temp_drift : nat -> R;
  humidity_drift : nat -> Z
}.

Record Reading : Type := {
  reading_listing_id : string;
  reading_freshness : Z;
  temperature_c : R;
  reading_humidity : Z;
  timestamp : Z
}.

Definition sensor_init (dr : SensorDraws) : Sensor :=
  {| freshness := freshness0 dr;
     temp_c := py_round (temp0 dr) 1;
     humidity := humidity0 dr |}.

(** One round of the loop up to the message. *)
Definition sensor_step (s : Sensor) (df : Z) (dt : R) (dh : Z) : Sensor :=
  {| freshness := Z.max 50 (freshness s + df);
     temp_c := py_max 0 (temp_c s + dt);
     humidity := Z.min 90 (Z.max 20 (humidity s + dh)) |}.

Fixpoint sensor_after (dr : SensorDraws) (n : nat) : Sensor :=
  match n with
  | O => sensor_init dr
  | S k => sensor_step (sensor_after dr k) (freshness_drift dr k) (temp_drift dr k)
                       (humidity_drift dr k)
  end.

(** The [k]-th message, counted from 0. *)
Definition reading (listing_id : string) (dr : SensorDraws) (clock : nat -> Z)
    (k : nat) : Reading :=
  let s := sensor_after dr (S k) in
  {| reading_listing_id := listing_id;
     reading_freshness := freshness s;
     temperature_c := py_round (temp_c s) 1;
     reading_humidity := humidity s;
     timestamp := clock k |}.

(** The messages sent when the client disconnects at the send of round
    [n]. *)
Definition freshness_feed (listing_id : string) (dr : SensorDraws)
    (clock : nat -> Z) (n : nat) : list Reading :=
  map (reading listing_id dr clock) (seq 0 n).

(** The draws lie in the ranges the source asks for. *)
Definition sensor_draws_in_range (dr : SensorDraws) : Prop :=
  (85 <= freshness0 dr <= 99)%Z
  /\ 4 <= temp0 dr <= 12
  /\ (40 <= humidity0 dr <= 70)%Z
  /\ forall k, (-2 <= freshness_drift dr k <= 1)%Z
               /\ - (3 / 10) <= temp_drift dr k <= 3 / 10
               /\ (-2 <= humidity_drift dr k <= 2)%Z.

(** ** More sample data *)

Module Sample2.

(** A recipient on the equator, one degree east of the origin. *)
Definition far_kitchen : Account.t :=
  {| Account._id := Oid "0123456789abcdef0123456b";
     Account.role := "recipient";
     Account.is_active := true;
     Account.lat := Some 0;
     Account.lng := Some 1 |}.

Definition soup : CreateListingRequest :=
  {| clr_donor_id := "donor-1"; clr_title := "Soup"; clr_description := None;
     clr_type := "soup"; clr_quantity := 4; clr_unit := "servings";
     clr_lat := 10; clr_lng := 20; clr_expires_in_minutes := None |}.

Definition stale_soup : CreateListingRequest :=
  {| clr_donor_id := "donor-1"; clr_title := "Soup"; clr_description := None;
     clr_type := "soup"; clr_quantity := 4; clr_unit := "servings";
     clr_lat := 10; clr_lng := 20; clr_expires_in_minutes := Some (-5)%Z |}.

Definition no_soup : CreateListingRequest :=
  {| clr_donor_id := "donor-1"; clr_title := "Soup"; clr_description := None;
     clr_type := "soup"; clr_quantity := 0; clr_unit := "servings";
     clr_lat := 10; clr_lng := 20; clr_expires_in_minutes := None |}.

Definition a_match (donor recipient : string) : MatchDoc :=
  {| _id := "m"; fields :=
       {| Match.listing_id := Sample.bread_id; Match.donor_id := donor;
          Match.recipient_id := recipient; Match.score := 1;
          Match.distance_km := 0; Match.route_eta_min := 5;
          Match.status := Match.proposed |} |}.

Definition db_matched : Store :=
  {| listing := [Sample.bread]; account := [];
     match_ := [a_match "donor-1" "shelter"; a_match "donor-2" "pantry"];
     minted := 2 |}.

Definition stamped : MatchDoc -> option Z := fun _ => Some 7%Z.

Definition steady : SensorDraws :=
  {| freshness0 := 90%Z; temp0 := 5; humidity0 := 50%Z;
     freshness_drift := fun _ => 1%Z;
     temp_drift := fun _ => 0;
     humidity_drift := fun _ => 0%Z |}.

End Sample2.

(** ** Facts about the numeric primitives *)

Section NumFacts.

Lemma Rleb_true x y : Rleb x y = true <-> x <= y.
Proof. unfold Rleb; destruct (Rle_dec x y); split; intros; auto; discriminate || contradiction. Qed.

Lemma Rleb_false x y : Rleb x y = false <-> y < x.
Proof.
  unfold Rleb; destruct (Rle_dec x y); split; intros; try discriminate; try lra; auto.
Qed.

Lemma Rltb_true x y : Rltb x y = true <-> x < y.
Proof. unfold Rltb; destruct (Rlt_dec x y); split; intros; auto; discriminate || contradiction. Qed.

Lemma Rltb_false x y : Rltb x y = false <-> y <= x.
Proof.
  unfold Rltb; destruct (Rlt_dec x y); split; intros; try discriminate; try lra; auto.
Qed.

Lemma Reqb_true x y : Reqb x y = true <-> x = y.
Proof. unfold Reqb; destruct (Req_dec_T x y); split; intros; auto; discriminate || contradiction. Qed.

Lemma Reqb_refl x : Reqb x x = true.
Proof. now apply Reqb_true. Qed.

Lemma py_max_Rmax a b : py_max a b = Rmax a b.
Proof.
  unfold py_max, Rmax, Rltb.
  destruct (Rlt_dec a b), (Rle_dec a b); lra.
Qed.

Lemma py_min_Rmin a b : py_min a b = Rmin a b.
Proof.
  unfold py_min, Rmin, Rltb.
  destruct (Rlt_dec b a), (Rle_dec a b); lra.
Qed.

Lemma py_max_lb_l a b : a <= py_max a b.
Proof. rewrite py_max_Rmax; apply Rmax_l. Qed.

Lemma py_max_lb_r a b : b <= py_max a b.
Proof. rewrite py_max_Rmax; apply Rmax_r. Qed.

Lemma py_min_ub_l a b : py_min a b <= a.
Proof. rewrite py_min_Rmin; apply Rmin_l. Qed.

Lemma pow10_pos n : 0 < 10 ^ n.
Proof. apply pow_lt; lra. Qed.

(** The rounded integer is within one half of the argument. *)
Lemma round_half_even_near x :
  IZR (round_half_even x) - 1 / 2 <= x <= IZR (round_half_even x) + 1 / 2.
Proof.
  unfold round_half_even.
  destruct (base_Int_part x) as [Hlo Hhi].
  set (f := Int_part x) in *.
  destruct (Rltb (x - IZR f) (1 / 2)) eqn:E1.
  - apply Rltb_true in E1; lra.
  - apply Rltb_false in E1.
    destruct (Rltb (1 / 2) (x - IZR f)) eqn:E2.
    + apply Rltb_true in E2. rewrite plus_IZR; lra.
    + apply Rltb_false in E2.
      destruct (Z.even f); [ | rewrite plus_IZR ]; lra.
Qed.

(** An integer strictly within one half of [x] is the rounded value. *)
Lemma round_half_even_unique x z :
  IZR z - 1 / 2 < x < IZR z + 1 / 2 -> round_half_even x = z.
Proof.
  intros [Hlo Hhi].
  pose proof (round_half_even_near x) as [Nlo Nhi].
  set (w := round_half_even x) in *.
  assert (H1 : IZR w < IZR z + 1) by lra.
  assert (H2 : IZR z < IZR w + 1) by lra.
  rewrite <- plus_IZR in H1, H2.
  apply lt_IZR in H1, H2. lia.
Qed.

Lemma round_half_even_IZR z : round_half_even (IZR z) = z.
Proof. apply round_half_even_unique; lra. Qed.

(** Rounding is monotone. *)
Lemma round_half_even_mono x y :
  x <= y -> (round_half_even x <= round_half_even y)%Z.
Proof.
  intros Hxy.
  destruct (Z_le_gt_dec (round_half_even x) (round_half_even y)) as [ | Hgt ]; [ assumption | exfalso ].
  pose proof (round_half_even_near x) as [Xlo Xhi].
  pose proof (round_half_even_near y) as [Ylo Yhi].
  assert (Hz : (round_half_even y + 1 <= round_half_even x)%Z) by lia.
  apply IZR_le in Hz. rewrite plus_IZR in Hz.
  (* both arguments sit on the same half-integer, which rounds one way *)
  assert (Ex : x = IZR (round_half_even y) + 1 / 2) by lra.
  assert (Ey : y = IZR (round_half_even y) + 1 / 2) by lra.
  assert (Exy : x = y) by lra.
  rewrite Exy in Hgt. lia.
Qed.

Lemma py_round_near x n :
  py_round x n - 1 / 2 / 10 ^ n <= x <= py_round x n + 1 / 2 / 10 ^ n.
Proof.
  unfold py_round.
  pose proof (pow10_pos n) as Hp.
  pose proof (round_half_even_near (x * 10 ^ n)) as [Hlo Hhi].
  set (w := IZR (round_half_even (x * 10 ^ n))) in *.
  assert (Hi : 0 < / 10 ^ n) by now apply Rinv_0_lt_compat.
  assert (A : (w - 1 / 2) * / 10 ^ n <= x * 10 ^ n * / 10 ^ n)
    by (apply Rmult_le_compat_r; lra).
  assert (B : x * 10 ^ n * / 10 ^ n <= (w + 1 / 2) * / 10 ^ n)
    by (apply Rmult_le_compat_r; lra).
  replace (x * 10 ^ n * / 10 ^ n) with x in A, B by (field; lra).
  unfold Rdiv in *. split; lra.
Qed.

Lemma py_round_mono x y n : x <= y -> py_round x n <= py_round y n.
Proof.
  intros Hxy. unfold py_round.
  pose proof (pow10_pos n) as Hp.
  apply Rmult_le_compat_r; [ left; now apply Rinv_0_lt_compat | ].
  apply IZR_le, round_half_even_mono.
  apply Rmult_le_compat_r; lra.
Qed.

(** Integers are fixed by decimal rounding. *)
Lemma py_round_IZR z n : py_round (IZR z) n = IZR z.
Proof.
  unfold py_round.
  pose proof (pow10_pos n) as Hp.
  rewrite (pow_IZR 10 n) in *.
  rewrite <- mult_IZR, round_half_even_IZR, mult_IZR.
  field. lra.
Qed.

Lemma py_round_0 n : py_round 0 n = 0.
Proof. apply (py_round_IZR 0). Qed.

Lemma py_round_1 n : py_round 1 n = 1.
Proof. apply (py_round_IZR 1). Qed.

Lemma py_round_nonneg x n : 0 <= x -> 0 <= py_round x n.
Proof. intros H. rewrite <- (py_round_0 n). now apply py_round_mono. Qed.

(** A concrete rounding: [z] hundredths, thousandths, ... *)
Lemma py_round_unique x n z :
  IZR z - 1 / 2 < x * 10 ^ n < IZR z + 1 / 2 -> py_round x n = IZR z / 10 ^ n.
Proof. intros H. unfold py_round. now rewrite (round_half_even_unique _ z). Qed.

End NumFacts.

(** ** Facts about the distance primitive *)

Section Haversine.

Lemma radians_0 : radians 0 = 0.
Proof. unfold radians; ring. Qed.

Lemma radians_opp x : radians (- x) = - radians x.
Proof. unfold radians; ring. Qed.

Lemma PI_bounds : 3135 / 1000 < PI < 3143 / 1000.
Proof.
  pose proof (PI_2_3_7_ineq 1) as [Hlo _].
  pose proof (PI_2_3_7_ineq 0) as [_ Hhi].
  pose proof (PI_2_3_7_ineq 1) as [_ Hhi1].
  unfold sum_f_R0, tg_alt, PI_2_3_7_tg, Ratan_seq in *.
  simpl in *.
  split; lra.
Qed.

Lemma haversine_km_unfold lat1 lon1 lat2 lon2 :
  haversine_km lat1 lon1 lat2 lon2 =
  6371 * (2 * atan2 (sqrt (haversine_a lat1 lon1 lat2 lon2))
                    (sqrt (1 - haversine_a lat1 lon1 lat2 lon2))).
Proof. reflexivity. Qed.

Lemma haversine_a_sym lat1 lon1 lat2 lon2 :
  haversine_a lat1 lon1 lat2 lon2 = haversine_a lat2 lon2 lat1 lon1.
Proof.
  unfold haversine_a.
  replace (radians (lat2 - lat1) / 2) with (- (radians (lat1 - lat2) / 2))
    by (unfold radians; field).
  replace (radians (lon2 - lon1) / 2) with (- (radians (lon1 - lon2) / 2))
    by (unfold radians; field).
  rewrite !sin_neg. ring.
Qed.

(** Over the reals both square roots are taken of numbers in [0, 1]. *)
Lemma haversine_a_range lat1 lon1 lat2 lon2 :
  0 <= haversine_a lat1 lon1 lat2 lon2 <= 1.
Proof.
  unfold haversine_a.
  set (p1 := radians lat1). set (p2 := radians lat2).
  replace (radians (lat2 - lat1)) with (p2 - p1) by (unfold p1, p2, radians; ring).
  set (s := sin (radians (lon2 - lon1) / 2) ^ 2).
  assert (Hs : 0 <= s <= 1).
  { unfold s. pose proof (SIN_bound (radians (lon2 - lon1) / 2)) as [? ?]. split; nra. }
  assert (Hhalf : sin ((p2 - p1) / 2) ^ 2 = (1 - cos (p2 - p1)) / 2).
  { pose proof (cos_2a_sin ((p2 - p1) / 2)) as H.
    replace (2 * ((p2 - p1) / 2)) with (p2 - p1) in H by field.
    rewrite H. field. }
  rewrite Hhalf.
  pose proof (COS_bound (p2 - p1)) as [Hm1 Hm2].
  pose proof (COS_bound (p2 + p1)) as [Hp1 Hp2].
  rewrite cos_minus in *. rewrite cos_plus in *.
  set (c := cos p1 * cos p2) in *.
  replace (cos p2 * cos p1) with c in * by (unfold c; ring).
  set (q := sin p2 * sin p1) in *.
  split; nra.
Qed.

Lemma atan_nonneg x : 0 <= x -> 0 <= atan x.
Proof.
  intros [H | H].
  - left. rewrite <- atan_0. now apply atan_increasing.
  - subst. rewrite atan_0. lra.
Qed.

Lemma atan2_nonneg y x : 0 <= y -> 0 <= x -> 0 <= atan2 y x.
Proof.
  intros Hy Hx. unfold atan2.
  pose proof PI_RGT_0 as Hpi.
  destruct (Rltb 0 x) eqn:E1.
  - apply Rltb_true in E1. apply atan_nonneg.
    apply Rmult_le_pos; [ assumption | left; now apply Rinv_0_lt_compat ].
  - destruct (Rltb x 0) eqn:E2.
    + apply Rltb_true in E2. lra.
    + destruct (Rltb 0 y); [ lra | ].
      destruct (Rltb y 0) eqn:E4; [ apply Rltb_true in E4 | ]; lra.
Qed.

Lemma haversine_km_nonneg lat1 lon1 lat2 lon2 :
  0 <= haversine_km lat1 lon1 lat2 lon2.
Proof.
  rewrite haversine_km_unfold.
  pose proof (atan2_nonneg _ _ (sqrt_pos (haversine_a lat1 lon1 lat2 lon2))
                (sqrt_pos (1 - haversine_a lat1 lon1 lat2 lon2))).
  lra.
Qed.

Lemma haversine_km_sym lat1 lon1 lat2 lon2 :
  haversine_km lat1 lon1 lat2 lon2 = haversine_km lat2 lon2 lat1 lon1.
Proof. now rewrite !haversine_km_unfold, haversine_a_sym. Qed.

Lemma haversine_km_same lat lon : haversine_km lat lon lat lon = 0.
Proof.
  rewrite haversine_km_unfold.
  assert (Ha : haversine_a lat lon lat lon = 0).
  { unfold haversine_a.
    replace (radians (lat - lat) / 2) with 0 by (unfold radians; field).
    replace (radians (lon - lon) / 2) with 0 by (unfold radians; field).
    rewrite sin_0. ring. }
  rewrite Ha, Rminus_0_r, sqrt_0, sqrt_1.
  unfold atan2.
  replace (Rltb 0 1) with true by (symmetry; apply Rltb_true; lra).
  replace (0 / 1) with 0 by field.
  rewrite atan_0. ring.
Qed.

(** Along the equator the distance is the arc of the longitude gap. *)
Lemma haversine_km_equator lng :
  0 <= lng <= 90 -> haversine_km 0 0 0 lng = 6371 * radians lng.
Proof.
  intros Hl.
  pose proof PI_RGT_0 as Hpi.
  rewrite haversine_km_unfold.
  set (x := radians lng / 2).
  assert (Hx : 0 <= x <= PI / 4).
  { unfold x, radians. split; nra. }
  assert (Ha : haversine_a 0 0 0 lng = (sin x) ^ 2).
  { unfold haversine_a.
    replace (radians (0 - 0) / 2) with 0 by (unfold radians; field).
    replace (lng - 0) with lng by ring. fold x.
    rewrite radians_0, sin_0, cos_0. ring. }
  rewrite Ha.
  assert (Hsin : 0 <= sin x) by (apply sin_ge_0; lra).
  assert (Hcos : 0 < cos x) by (apply cos_gt_0; lra).
  replace (1 - sin x ^ 2) with ((cos x) ^ 2).
  2:{ pose proof (sin2_cos2 x) as H. unfold Rsqr in H. nra. }
  rewrite !sqrt_pow2 by lra.
  unfold atan2.
  replace (Rltb 0 (cos x)) with true by (symmetry; now apply Rltb_true).
  change (sin x / cos x) with (tan x).
  rewrite atan_tan by lra.
  unfold x. field.
Qed.

End Haversine.

(** ** Facts about the stable sort *)

Section SortFacts.
Context {A K : Type} (lt : K -> K -> bool) (key : A -> K).

Hypothesis lt_asym : forall j k, lt j k = true -> lt k j = false.
Hypothesis ge_trans : forall i j k, lt j i = false -> lt k j = false -> lt k i = false.

Lemma insert_sorted_perm x l : Permutation (insert_sorted lt key x l) (x :: l).
Proof.
  induction l as [ | y l IH ]; simpl.
  - apply Permutation_refl.
  - destruct (lt (key y) (key x)).
    + eapply perm_trans; [ apply perm_skip, IH | apply perm_swap ].
    + apply Permutation_refl.
Qed.

Lemma list_sort_perm l : Permutation (list_sort lt key l) l.
Proof.
  induction l as [ | x l IH ]; simpl.
  - apply perm_nil.
  - eapply perm_trans; [ apply insert_sorted_perm | now apply perm_skip ].
Qed.

Lemma insert_sorted_sorted x l :
  StronglySorted (not_after lt key) l -> StronglySorted (not_after lt key) (insert_sorted lt key x l).
Proof.
  induction 1 as [ | y l Hs IH Hy ]; simpl.
  - repeat constructor.
  - destruct (lt (key y) (key x)) eqn:E.
    + constructor; [ exact IH | ].
      apply Forall_forall. intros z Hz.
      apply (Permutation_in _ (insert_sorted_perm x l)) in Hz.
      destruct Hz as [ <- | Hz ].
      * unfold not_after. now apply lt_asym.
      * rewrite Forall_forall in Hy. now apply Hy.
    + constructor; [ now constructor | ].
      constructor; [ exact E | ].
      apply Forall_forall. intros z Hz.
      rewrite Forall_forall in Hy. specialize (Hy z Hz).
      unfold not_after in *. now apply (ge_trans _ (key y)).
Qed.

Lemma list_sort_sorted l : StronglySorted (not_after lt key) (list_sort lt key l).
Proof.
  induction l as [ | x l IH ]; simpl.
  - constructor.
  - now apply insert_sorted_sorted.
Qed.

Lemma list_sort_length l : List.length (list_sort lt key l) = List.length l.
Proof. apply Permutation_length, list_sort_perm. Qed.

Lemma list_sort_In x l : In x (list_sort lt key l) <-> In x l.
Proof.
  split; apply Permutation_in;
    [ apply list_sort_perm | apply Permutation_sym, list_sort_perm ].
Qed.
End SortFacts.

Lemma In_firstn {A} (x : A) n l : In x (firstn n l) -> In x l.
Proof.
  revert l; induction n as [ | n IH ]; intros [ | y l ]; simpl; try tauto.
  intros [ -> | H ]; auto.
Qed.

Lemma StronglySorted_firstn {A} (Rel : A -> A -> Prop) n l :
  StronglySorted Rel l -> StronglySorted Rel (firstn n l).
Proof.
  revert l; induction n as [ | n IH ]; intros l Hs; simpl.
  - constructor.
  - destruct Hs as [ | y l Hs Hy ]; constructor.
    + now apply IH.
    + apply Forall_forall. intros z Hz. apply In_firstn in Hz.
      rewrite Forall_forall in Hy. now apply Hy.
Qed.

Lemma StronglySorted_weaken {A} (P Q : A -> A -> Prop) l :
  (forall a b, P a b -> Q a b) -> StronglySorted P l -> StronglySorted Q l.
Proof.
  intros HPQ. induction 1 as [ | y l Hs IH Hy ]; constructor; auto.
  eapply Forall_impl; [ | exact Hy ]. auto.
Qed.

Lemma Rltb_asym j k : Rltb j k = true -> Rltb k j = false.
Proof. rewrite Rltb_true, Rltb_false. lra. Qed.

Lemma Rltb_ge_trans i j k : Rltb j i = false -> Rltb k j = false -> Rltb k i = false.
Proof. rewrite !Rltb_false. lra. Qed.

(** What the comparison of two key pairs decides. *)
Lemma tuple_lt_true k1 k2 :
  tuple_lt k1 k2 = true <->
  fst k1 < fst k2 \/ (fst k1 = fst k2 /\ snd k1 < snd k2).
Proof.
  unfold tuple_lt.
  destruct (Reqb (fst k1) (fst k2)) eqn:E1.
  - apply Reqb_true in E1.
    destruct (Reqb (snd k1) (snd k2)) eqn:E2.
    + apply Reqb_true in E2. split; [ discriminate | lra ].
    + rewrite Rltb_true. split; [ auto | lra ].
  - rewrite Rltb_true. split; [ auto | ].
    intros [ H | [H _] ]; [ exact H | ].
    apply Reqb_true in H. congruence.
Qed.

Lemma tuple_lt_false k1 k2 :
  tuple_lt k1 k2 = false <->
  fst k2 < fst k1 \/ (fst k1 = fst k2 /\ snd k2 <= snd k1).
Proof.
  destruct (tuple_lt k1 k2) eqn:E.
  - apply tuple_lt_true in E. split; [ discriminate | lra ].
  - split; [ intros _ | reflexivity ].
    destruct (Rtotal_order (fst k1) (fst k2)) as [ H | [ H | H ] ].
    + assert (tuple_lt k1 k2 = true) by (apply tuple_lt_true; auto). congruence.
    + right. split; [ exact H | ].
      destruct (Rle_dec (snd k2) (snd k1)) as [ | Hn ]; [ assumption | ].
      assert (tuple_lt k1 k2 = true) by (apply tuple_lt_true; right; lra). congruence.
    + now left.
Qed.

Lemma tuple_lt_asym j k : tuple_lt j k = true -> tuple_lt k j = false.
Proof. rewrite tuple_lt_true, tuple_lt_false. lra. Qed.

Lemma tuple_lt_ge_trans i j k :
  tuple_lt j i = false -> tuple_lt k j = false -> tuple_lt k i = false.
Proof. rewrite !tuple_lt_false. lra. Qed.

Lemma not_after_ranks a b : not_after tuple_lt match_key a b -> ranks_before a b.
Proof.
  unfold not_after, ranks_before, match_key.
  rewrite tuple_lt_false; simpl. lra.
Qed.

(** ** Facts about the matcher *)

Section MatcherFacts.

Lemma str_in_self s : str_in s [s] = true.
Proof. unfold str_in; simpl. now rewrite String.eqb_refl. Qed.

Lemma type_match_matched l : type_match l = 1.
Proof. unfold type_match. now rewrite str_in_self. Qed.

Lemma raw_score_lower_bound dist ff :
  85 / 100 <= ff -> 285 / 1000 <= raw_score dist 1 ff.
Proof.
  intros Hff. unfold raw_score.
  pose proof (py_max_lb_l 0 (1 - dist / 20)). lra.
Qed.

(** Rounding first and capping at one, as the code does, is rounding the
    value clamped to the unit interval. *)
Lemma min_round_is_round_clamp x :
  0 <= x -> py_min 1 (py_round x 3) = py_round (clamp01 x) 3.
Proof.
  intros Hx. unfold clamp01. rewrite py_min_Rmin.
  destruct (Rle_dec x 1) as [Hle | Hgt].
  - rewrite (Rmin_right 1 x) by lra. rewrite Rmax_right by lra.
    apply Rmin_right. rewrite <- (py_round_1 3). now apply py_round_mono.
  - rewrite (Rmin_left 1 x) by lra. rewrite Rmax_right by lra.
    rewrite py_round_1. apply Rmin_left.
    rewrite <- (py_round_1 3). apply py_round_mono. lra.
Qed.

Lemma match_score_range l lat lng r ff :
  85 / 100 <= ff ->
  0 <= Match.score (match_fields l lat lng r ff) <= 1.
Proof.
  intros Hff. simpl. rewrite type_match_matched.
  pose proof (raw_score_lower_bound (recipient_dist lat lng r) ff Hff) as Hraw.
  split.
  - rewrite py_min_Rmin. apply Rmin_glb; [ lra | ].
    apply py_round_nonneg. lra.
  - apply py_min_ub_l.
Qed.

Lemma recipient_dist_nonneg lat lng r : 0 <= recipient_dist lat lng r.
Proof. apply haversine_km_nonneg. Qed.

Lemma match_fields_valid l lat lng r ff :
  85 / 100 <= ff -> Match.valid (match_fields l lat lng r ff) = true.
Proof.
  intros Hff. unfold Match.valid.
  destruct (match_score_range l lat lng r ff Hff) as [Hlo Hhi].
  rewrite !andb_true_iff, !Rleb_true. repeat split; try assumption; simpl.
  - apply py_round_nonneg, recipient_dist_nonneg.
  - apply py_round_nonneg.
    pose proof (py_max_lb_l 5 (recipient_dist lat lng r / 40 * 60)). lra.
Qed.

Lemma match_for_ok l lat lng r ff :
  85 / 100 <= ff -> match_for l lat lng r ff = Return (match_fields l lat lng r ff).
Proof.
  intros Hff. unfold match_for, Match_new. now rewrite match_fields_valid.
Qed.


(** With draws in range no model is rejected: the loop runs to its end and
    has written one record per recipient. *)
Lemma match_loop_ok l rs rng :
  uniform_draws rng ->
  forall i acc db,
    match_loop l (listing_lat l) (listing_lng l) rs rng i acc db =
    (Return (acc ++ created_matches l rs rng i (minted db)),
     with_matches db (match_ db ++ created_matches l rs rng i (minted db))
                  (minted db + N.of_nat (List.length rs))%N).
Proof.
  intros Hrng. induction rs as [ | r rs IH ]; intros i acc db.
  - simpl. unfold ret, with_matches. rewrite !app_nil_r, N.add_0_r.
    now destruct db.
  - cbn [match_loop created_matches]. unfold bind at 1, lift.
    rewrite match_for_ok by apply Hrng.
    unfold bind at 1, create_document_match.
    rewrite IH. unfold with_matches. cbn [minted match_ listing account].
    rewrite <- !app_assoc. cbn [app List.length].
    f_equal. f_equal. rewrite Nat2N.inj_succ. lia.
Qed.

Lemma compute_match_unresolved req rng db :
  resolve db (req_listing_id req) = None ->
  compute_match req rng db = (Raise not_found, db).
Proof.
  unfold resolve, compute_match.
  destruct (ObjectId_of_str (req_listing_id req)) as [ oid | ]; [ | reflexivity ].
  now intros ->.
Qed.

Lemma compute_match_no_recipient req rng db l :
  resolve db (req_listing_id req) = Some l ->
  find_recipients db = [] ->
  compute_match req rng db = (Return [], db).
Proof.
  unfold resolve, compute_match.
  destruct (ObjectId_of_str (req_listing_id req)) as [ oid | ]; [ | discriminate ].
  now intros -> ->.
Qed.

Lemma compute_match_ok req rng db l :
  resolve db (req_listing_id req) = Some l ->
  find_recipients db <> [] ->
  uniform_draws rng ->
  let created := created_matches l (find_recipients db) rng 0 (minted db) in
  compute_match req rng db =
  (Return (firstn 5 (list_sort tuple_lt match_key created)),
   with_matches db (match_ db ++ created)
                (minted db + N.of_nat (List.length (find_recipients db)))%N).
Proof.
  unfold resolve, compute_match.
  destruct (ObjectId_of_str (req_listing_id req)) as [ oid | ]; [ | discriminate ].
  intros -> Hne Hrng.
  destruct (find_recipients db) as [ | r rs ] eqn:Er; [ congruence | ].
  unfold bind.
  change (get_default (Listing.lat l) 0) with (listing_lat l).
  change (get_default (Listing.lng l) 0) with (listing_lng l).
  rewrite (match_loop_ok l (r :: rs) rng Hrng 0 [] db).
  reflexivity.
Qed.

End MatcherFacts.

(** ** Facts about the search *)

Section SearchFacts.

(** Where the items of the loop come from. *)
Lemma nearby_loop_In lat lng radius_km now docs :
  forall results x,
    In x (nearby_loop lat lng radius_km now docs results) ->
    In x results
    \/ (In (it x) docs
        /\ search_dist lat lng (it x) <= radius_km
        /\ it_distance_km x = py_round (search_dist lat lng (it x)) 2).
Proof.
  induction docs as [ | l rest IH ]; intros results x Hx; simpl in Hx.
  - now left.
  - destruct (expired l now).
    + destruct (IH _ _ Hx) as [ H | (H1 & H2) ]; [ now left | right; simpl; tauto ].
    + match type of Hx with
      | context [ if ?c then _ else _ ] => destruct c eqn:Ec
      end.
      * apply andb_true_iff in Ec. destruct Ec as [Ed _]. apply Rleb_true in Ed.
        destruct (IH _ _ Hx) as [ H | (H1 & H2) ].
        -- apply in_app_or in H. destruct H as [ H | [ <- | [] ] ].
           ++ now left.
           ++ right. simpl. unfold search_dist. auto.
        -- right; simpl; tauto.
      * destruct (IH _ _ Hx) as [ H | (H1 & H2) ]; [ now left | right; simpl; tauto ].
Qed.

Lemma nearby_listings_In lat lng radius_km now db x :
  In x (items (nearby_listings lat lng radius_km now db)) ->
  In (it x) (listing db)
  /\ search_dist lat lng (it x) <= radius_km
  /\ it_distance_km x = py_round (search_dist lat lng (it x)) 2.
Proof.
  unfold nearby_listings. cbn [items]. intros Hx.
  apply In_firstn in Hx.
  apply (proj1 (list_sort_In Rltb it_distance_km _ _)) in Hx.
  apply nearby_loop_In in Hx. destruct Hx as [ [] | H ]. exact H.
Qed.

(** The sample search: one listing 0.9974 km away, inside a radius of
    0.999 km, annotated with the distance 1.0. *)
Lemma rice_dist : search_dist 0 0 Sample.rice = 6371 * radians (897 / 100000).
Proof.
  unfold search_dist, listing_lat, listing_lng; simpl.
  apply haversine_km_equator. lra.
Qed.

Lemma rice_dist_bounds :
  995 / 1000 < search_dist 0 0 Sample.rice < 999 / 1000.
Proof.
  rewrite rice_dist. unfold radians.
  pose proof PI_bounds as [Hlo Hhi]. split; lra.
Qed.

Lemma rice_dist_rounded : py_round (search_dist 0 0 Sample.rice) 2 = 100 / 10 ^ 2.
Proof.
  apply (py_round_unique _ 2 100).
  pose proof rice_dist_bounds as [Hlo Hhi]. simpl. split; lra.
Qed.

Lemma nearby_rice now :
  items (nearby_listings 0 0 (999 / 1000) now Sample.db_east) = [Sample.rice_item].
Proof.
  unfold nearby_listings, get_documents_listing. cbn [listing Sample.db_east items].
  cbn [nearby_loop]. cbn [expired Sample.rice Listing.expires_at].
  change (haversine_km 0 0 (get_default (Listing.lat Sample.rice) 0)
                           (get_default (Listing.lng Sample.rice) 0))
    with (search_dist 0 0 Sample.rice).
  replace (Rleb (search_dist 0 0 Sample.rice) (999 / 1000)) with true.
  2:{ symmetry. apply Rleb_true. pose proof rice_dist_bounds. lra. }
  cbn. rewrite rice_dist_rounded. reflexivity.
Qed.

End SearchFacts.

(** ** Facts about the quantity of a listing *)

Section QuantityFacts.

Lemma match_fields_quantity l1 l2 r ff :
  same_but_quantity l1 l2 ->
  match_fields l1 (listing_lat l1) (listing_lng l1) r ff
  = match_fields l2 (listing_lat l2) (listing_lng l2) r ff.
Proof.
  destruct l1, l2. unfold same_but_quantity, Listing.with_quantity; simpl.
  intros H. injection H as -> -> -> -> -> _ _. reflexivity.
Qed.

Lemma find_one_quantity db1 db2 oid :
  Forall2 same_but_quantity (listing db1) (listing db2) ->
  match find_one db1 oid, find_one db2 oid with
  | Some l1, Some l2 => same_but_quantity l1 l2
  | None, None => True
  | _, _ => False
  end.
Proof.
  unfold find_one. induction 1 as [ | l1 l2 ls1 ls2 Hl Hls IH ]; simpl.
  - exact I.
  - assert (Hid : Listing._id l1 = Listing._id l2).
    { destruct l1, l2. unfold same_but_quantity, Listing.with_quantity in Hl.
      simpl in *. now injection Hl. }
    rewrite Hid. destruct (ObjectId_eqb (Listing._id l2) oid); [ exact Hl | exact IH ].
Qed.

(** The loop run on two listings that differ in their quantity only, over
    stores with the same matches, gives the same outcome and the same
    matches. *)
Lemma match_loop_quantity l1 l2 rs rng :
  same_but_quantity l1 l2 ->
  forall i acc db1 db2,
    match_ db1 = match_ db2 -> minted db1 = minted db2 ->
    let run1 := match_loop l1 (listing_lat l1) (listing_lng l1) rs rng i acc db1 in
    let run2 := match_loop l2 (listing_lat l2) (listing_lng l2) rs rng i acc db2 in
    fst run1 = fst run2
    /\ match_ (snd run1) = match_ (snd run2)
    /\ minted (snd run1) = minted (snd run2).
Proof.
  intros Hq. induction rs as [ | r rs IH ]; intros i acc db1 db2 Hm Hn.
  - simpl. auto.
  - cbn [match_loop]. unfold bind at 1 3, lift, match_for.
    rewrite (match_fields_quantity l1 l2 r (rng i) Hq).
    destruct (Match_new (match_fields l2 (listing_lat l2) (listing_lng l2) r (rng i)))
      as [ m | e ].
    + unfold bind, create_document_match. rewrite Hm, Hn.
      apply IH; simpl; congruence.
    + simpl. auto.
Qed.

End QuantityFacts.

(** ** Facts about the records of one run *)

Section CreatedFacts.

Lemma created_matches_recipients l rs rng i n :
  map (fun d => Match.recipient_id (fields d)) (created_matches l rs rng i n)
  = map (fun r => str (Account._id r)) rs.
Proof.
  revert i n; induction rs as [ | r rs IH ]; intros i n; simpl;
    [ reflexivity | now rewrite IH ].
Qed.

Lemma created_matches_proposed l rs rng i n :
  Forall (fun d => Match.status (fields d) = Match.proposed)
         (created_matches l rs rng i n).
Proof.
  revert i n; induction rs as [ | r rs IH ]; intros i n; simpl; constructor;
    [ reflexivity | apply IH ].
Qed.

Lemma top5_incl (ms : list MatchDoc) :
  incl (firstn 5 (list_sort tuple_lt match_key ms)) ms.
Proof.
  intros x Hx. apply In_firstn in Hx.
  now apply (proj1 (list_sort_In tuple_lt match_key _ _)) in Hx.
Qed.

Lemma top5_sorted (ms : list MatchDoc) :
  StronglySorted ranks_before (firstn 5 (list_sort tuple_lt match_key ms)).
Proof.
  apply StronglySorted_firstn.
  apply (StronglySorted_weaken (not_after tuple_lt match_key)).
  - apply not_after_ranks.
  - apply list_sort_sorted; [ apply tuple_lt_asym | apply tuple_lt_ge_trans ].
Qed.

Lemma sample_draws : uniform_draws Sample.rng.
Proof. intros i. unfold Sample.rng. lra. Qed.

Lemma sample_resolve : resolve Sample.db (req_listing_id Sample.req) = Some Sample.bread.
Proof. reflexivity. Qed.

Lemma sample_recipients : find_recipients Sample.db = [Sample.shelter; Sample.pantry].
Proof. reflexivity. Qed.

End CreatedFacts.

(** * The claims *)

(** C1. For a listing, a recipient and a freshness factor in [0.85, 1.0],
    the model built in the loop validates, and its score is the composite
    [clamp01(max(0, 1 - dist/20) * 0.7 + type_match * 0.2 + freshness * 0.1)]
    rounded to three decimals, a number between 0 and 1. *)
Theorem match_score_in_unit_interval (l : Listing.t) (r : Account.t) (ff : R) :
  85 / 100 <= ff <= 1 ->
  exists m,
    match_for l (listing_lat l) (listing_lng l) r ff = Return m
    /\ Match.score m
       = spec_score (recipient_dist (listing_lat l) (listing_lng l) r) (type_match l) ff
    /\ 0 <= Match.score m <= 1.
Proof.
  intros [Hlo Hhi].
  exists (match_fields l (listing_lat l) (listing_lng l) r ff).
  split; [ now apply match_for_ok | ].
  split; [ | now apply match_score_range ].
  cbn [Match.score match_fields]. unfold spec_score.
  rewrite type_match_matched.
  pose proof (raw_score_lower_bound
                (recipient_dist (listing_lat l) (listing_lng l) r) ff Hlo) as Hraw.
  rewrite min_round_is_round_clamp by lra.
  unfold raw_score. now rewrite py_max_Rmax.
Qed.

Lemma match_score_in_unit_interval_witness :
  exists m,
    match_for Sample.bread (listing_lat Sample.bread) (listing_lng Sample.bread)
              Sample.shelter (9 / 10) = Return m
    /\ Match.score m
       = spec_score (recipient_dist (listing_lat Sample.bread) (listing_lng Sample.bread)
                                    Sample.shelter)
                    (type_match Sample.bread) (9 / 10)
    /\ 0 <= Match.score m <= 1.
Proof.
  apply (match_score_in_unit_interval Sample.bread Sample.shelter (9 / 10)).
  split; lra.
Defined.

(** C2, as the code has it. Every listing the search returns lies within
    the radius by its computed haversine distance; the [distance_km] it is
    annotated with is that distance rounded to two decimals, so it is at
    most [radius_km + 0.005]. *)
Theorem nearby_within_radius (lat lng radius_km : R) (now : Z) (db : Store)
    (x : NearbyItem) :
  In x (items (nearby_listings lat lng radius_km now db)) ->
  In (it x) (listing db)
  /\ search_dist lat lng (it x) <= radius_km
  /\ it_distance_km x = py_round (search_dist lat lng (it x)) 2
  /\ it_distance_km x <= radius_km + 5 / 1000.
Proof.
  intros Hx. apply nearby_listings_In in Hx. destruct Hx as (Hin & Hd & Hr).
  repeat split; try assumption.
  pose proof (py_round_near (search_dist lat lng (it x)) 2) as [Hn _].
  rewrite <- Hr in Hn. simpl in Hn. lra.
Qed.

Lemma nearby_within_radius_witness :
  In (it Sample.rice_item) (listing Sample.db_east)
  /\ search_dist 0 0 (it Sample.rice_item) <= 999 / 1000
  /\ it_distance_km Sample.rice_item = py_round (search_dist 0 0 (it Sample.rice_item)) 2
  /\ it_distance_km Sample.rice_item <= 999 / 1000 + 5 / 1000.
Proof.
  apply (nearby_within_radius 0 0 (999 / 1000) 0%Z Sample.db_east Sample.rice_item).
  rewrite nearby_rice. left. reflexivity.
Defined.

(** C2, as the claim has it, fails: from the origin with a radius of
    0.999 km the search returns a listing 0.9974 km away whose annotated
    [distance_km] is 1.0, more than the radius. *)
Lemma nearby_rounded_distance_exceeds_radius :
  exists x,
    In x (items (nearby_listings 0 0 (999 / 1000) 0%Z Sample.db_east))
    /\ 999 / 1000 < it_distance_km x.
Proof.
  exists Sample.rice_item. rewrite nearby_rice. split.
  - left. reflexivity.
  - simpl. lra.
Qed.

(** C3. Whatever list the matcher returns is in descending order of score,
    equal scores in ascending order of [distance_km], and has at most five
    items. *)
Theorem compute_match_sorted_top5 (req : MatchRequest) (rng : nat -> R)
    (db db' : Store) (ms : list MatchDoc) :
  compute_match req rng db = (Return ms, db') ->
  StronglySorted ranks_before ms /\ (List.length ms <= 5)%nat.
Proof.
  unfold compute_match.
  destruct (ObjectId_of_str (req_listing_id req)) as [ oid | ]; [ | discriminate ].
  destruct (find_one db oid) as [ l | ]; [ | discriminate ].
  destruct (find_recipients db) as [ | r rs ].
  - intros H. injection H as <- _. split; [ constructor | simpl; lia ].
  - unfold bind.
    destruct (match_loop l _ _ (r :: rs) rng 0 [] db) as [ [ matches | e ] db0 ];
      [ | discriminate ].
    intros H. unfold ret in H.
    replace ms with (firstn 5 (list_sort tuple_lt match_key matches)) by congruence.
    split; [ apply top5_sorted | apply firstn_le_length ].
Qed.

Lemma compute_match_sorted_top5_witness :
  let created := created_matches Sample.bread (find_recipients Sample.db) Sample.rng 0
                                 (minted Sample.db) in
  StronglySorted ranks_before (firstn 5 (list_sort tuple_lt match_key created))
  /\ (List.length (firstn 5 (list_sort tuple_lt match_key created)) <= 5)%nat.
Proof.
  intros created.
  apply (compute_match_sorted_top5 Sample.req Sample.rng Sample.db
           (with_matches Sample.db (match_ Sample.db ++ created)
              (minted Sample.db + N.of_nat (List.length (find_recipients Sample.db)))%N)).
  apply (compute_match_ok Sample.req Sample.rng Sample.db Sample.bread).
  - reflexivity.
  - rewrite sample_recipients. discriminate.
  - exact sample_draws.
Defined.

(** C4. A listing id that does not parse as an object id, or that parses
    and matches no stored listing, makes the matcher raise
    [HTTPException(404, "Listing not found")]; the store is left as it
    was, so no match record is created, and nothing is returned. *)
Theorem compute_match_not_found (req : MatchRequest) (rng : nat -> R) (db : Store) :
  ObjectId_of_str (req_listing_id req) = None
  \/ (exists oid, ObjectId_of_str (req_listing_id req) = Some oid
                  /\ find_one db oid = None) ->
  compute_match req rng db = (Raise (HTTPException 404 "Listing not found"), db).
Proof.
  intros H. apply compute_match_unresolved. unfold resolve.
  destruct H as [ -> | (oid & -> & Hf) ]; [ reflexivity | exact Hf ].
Qed.

Lemma compute_match_not_found_witness :
  compute_match Sample.req_garbled Sample.rng Sample.db
  = (Raise (HTTPException 404 "Listing not found"), Sample.db).
Proof.
  apply (compute_match_not_found Sample.req_garbled Sample.rng Sample.db).
  left. reflexivity.
Defined.

(** C5. When the listing resolves and no account has role "recipient" with
    the active flag set, the matcher returns the empty list without an
    error and leaves the store unchanged. *)
Theorem compute_match_no_recipients (req : MatchRequest) (rng : nat -> R)
    (db : Store) (l : Listing.t) :
  resolve db (req_listing_id req) = Some l ->
  filter (fun a => String.eqb (Account.role a) "recipient" && Account.is_active a)
         (account db) = [] ->
  compute_match req rng db = (Return [], db).
Proof.
  intros Hl Hr. now apply (compute_match_no_recipient req rng db l).
Qed.

Lemma compute_match_no_recipients_witness :
  compute_match Sample.req Sample.rng Sample.db_quiet = (Return [], Sample.db_quiet).
Proof.
  apply (compute_match_no_recipients Sample.req Sample.rng Sample.db_quiet Sample.bread);
    reflexivity.
Defined.

(** On the model over the reals: when the listing id resolves, there is at
    least one active recipient and the freshness draws lie in [0.85, 1.0],
    the matcher appends to the match collection exactly one record per
    active recipient, in their order, each with status [proposed]; the
    listings and the accounts are untouched, and the at most five returned
    matches are among the records written. *)
Theorem compute_match_persists_all (req : MatchRequest) (rng : nat -> R)
    (db : Store) (l : Listing.t) :
  resolve db (req_listing_id req) = Some l ->
  find_recipients db <> [] ->
  uniform_draws rng ->
  exists ms created,
    compute_match req rng db
    = (Return ms,
       with_matches db (match_ db ++ created)
                    (minted db + N.of_nat (List.length (find_recipients db)))%N)
    /\ map (fun d => Match.recipient_id (fields d)) created
       = map (fun r => str (Account._id r)) (find_recipients db)
    /\ Forall (fun d => Match.status (fields d) = Match.proposed) created
    /\ incl ms created
    /\ (List.length ms <= 5)%nat.
Proof.
  intros Hl Hne Hrng.
  exists (firstn 5 (list_sort tuple_lt match_key
                      (created_matches l (find_recipients db) rng 0 (minted db)))),
         (created_matches l (find_recipients db) rng 0 (minted db)).
  split; [ now apply compute_match_ok | ].
  split; [ apply created_matches_recipients | ].
  split; [ apply created_matches_proposed | ].
  split; [ apply top5_incl | apply firstn_le_length ].
Qed.

Lemma compute_match_persists_all_witness :
  exists ms created,
    compute_match Sample.req Sample.rng Sample.db
    = (Return ms,
       with_matches Sample.db (match_ Sample.db ++ created)
                    (minted Sample.db + N.of_nat (List.length (find_recipients Sample.db)))%N)
    /\ map (fun d => Match.recipient_id (fields d)) created
       = map (fun r => str (Account._id r)) (find_recipients Sample.db)
    /\ Forall (fun d => Match.status (fields d) = Match.proposed) created
    /\ incl ms created
    /\ (List.length ms <= 5)%nat.
Proof.
  apply (compute_match_persists_all Sample.req Sample.rng Sample.db Sample.bread).
  - reflexivity.
  - rewrite sample_recipients. discriminate.
  - intros i. unfold Sample.rng. lra.
Defined.

(** C6. The input on which the code falls short of the claim: a listing at
    (0.08, 0) and an active recipient at (-0.08, 180) are antipodal. Over
    the reals [a] is exactly 1 there and [1 - a] exactly 0, the edge of the
    domain of [math.sqrt], and the distance is half the circumference. The
    floats compute [a = 1.0000000000000002], so [math.sqrt(1 - a)] raises
    [ValueError] in the loop and no record is written for this recipient. *)
Theorem haversine_km_antipodal_edge :
  haversine_a (8 / 100) 0 (- (8 / 100)) 180 = 1
  /\ 1 - haversine_a (8 / 100) 0 (- (8 / 100)) 180 = 0
  /\ haversine_km (8 / 100) 0 (- (8 / 100)) 180 = 6371 * PI.
Proof.
  assert (Ha : haversine_a (8 / 100) 0 (- (8 / 100)) 180 = 1).
  { unfold haversine_a.
    replace (radians (- (8 / 100) - 8 / 100) / 2) with (- radians (8 / 100))
      by (unfold radians; field).
    replace (radians (180 - 0) / 2) with (PI / 2) by (unfold radians; field).
    rewrite radians_opp, sin_neg, cos_neg, sin_PI2.
    pose proof (sin2_cos2 (radians (8 / 100))) as H. unfold Rsqr in H.
    simpl. nra. }
  split; [ exact Ha | ].
  split; [ rewrite Ha; ring | ].
  rewrite haversine_km_unfold, Ha.
  replace (1 - 1) with 0 by ring.
  rewrite sqrt_1, sqrt_0. unfold atan2.
  replace (Rltb 0 0) with false by (symmetry; apply Rltb_false; lra).
  replace (Rltb 0 1) with true by (symmetry; apply Rltb_true; lra).
  field.
Qed.

(** C7. The membership test behind [type_match] compares the lowered
    category of the listing with itself: it always holds, [type_match] is
    1.0 for every listing, and the 0.8 branch is never taken. *)
Theorem type_match_always_one (l : Listing.t) :
  str_in (lower (get_default (Listing.type l) ""%string))
         [lower (get_default (Listing.type l) ""%string)] = true
  /\ type_match l = 1
  /\ type_match l <> 8 / 10.
Proof.
  split; [ apply str_in_self | ].
  rewrite type_match_matched. split; [ reflexivity | lra ].
Qed.

(** C8. The distance primitive is symmetric in its two coordinates. *)
Theorem haversine_km_symmetric (lat1 lon1 lat2 lon2 : R) :
  haversine_km lat1 lon1 lat2 lon2 = haversine_km lat2 lon2 lat1 lon1.
Proof. apply haversine_km_sym. Qed.

(** C9. Two runs of the matcher on stores whose listings differ in their
    quantity only, with the same accounts, the same matches and the same
    freshness draws, give the same response (so the same scores,
    distances and ETAs, in the same order) and write the same records. *)
Theorem compute_match_ignores_quantity (req : MatchRequest) (rng : nat -> R)
    (db1 db2 : Store) :
  Forall2 same_but_quantity (listing db1) (listing db2) ->
  account db1 = account db2 ->
  match_ db1 = match_ db2 ->
  minted db1 = minted db2 ->
  fst (compute_match req rng db1) = fst (compute_match req rng db2)
  /\ match_ (snd (compute_match req rng db1)) = match_ (snd (compute_match req rng db2)).
Proof.
  intros Hls Hacc Hm Hn. unfold compute_match.
  destruct (ObjectId_of_str (req_listing_id req)) as [ oid | ]; [ | simpl; auto ].
  pose proof (find_one_quantity db1 db2 oid Hls) as Hf.
  destruct (find_one db1 oid) as [ l1 | ], (find_one db2 oid) as [ l2 | ];
    try contradiction; [ | simpl; auto ].
  assert (Hr : find_recipients db1 = find_recipients db2)
    by (unfold find_recipients; now rewrite Hacc).
  rewrite Hr.
  destruct (find_recipients db2) as [ | r rs ]; [ simpl; auto | ].
  unfold bind.
  pose proof (match_loop_quantity l1 l2 (r :: rs) rng Hf 0 [] db1 db2 Hm Hn)
    as (H1 & H2 & _).
  change (get_default (Listing.lat l1) 0) with (listing_lat l1).
  change (get_default (Listing.lng l1) 0) with (listing_lng l1).
  change (get_default (Listing.lat l2) 0) with (listing_lat l2).
  change (get_default (Listing.lng l2) 0) with (listing_lng l2).
  destruct (match_loop l1 (listing_lat l1) (listing_lng l1) (r :: rs) rng 0 [] db1)
    as [ [ ms1 | e1 ] d1 ],
    (match_loop l2 (listing_lat l2) (listing_lng l2) (r :: rs) rng 0 [] db2)
    as [ [ ms2 | e2 ] d2 ]; simpl in *; try discriminate.
  - injection H1 as ->. auto.
  - auto.
Qed.

Lemma compute_match_ignores_quantity_witness :
  fst (compute_match Sample.req Sample.rng Sample.db)
  = fst (compute_match Sample.req Sample.rng Sample.db_more)
  /\ match_ (snd (compute_match Sample.req Sample.rng Sample.db))
     = match_ (snd (compute_match Sample.req Sample.rng Sample.db_more)).
Proof.
  apply (compute_match_ignores_quantity Sample.req Sample.rng Sample.db Sample.db_more).
  - constructor; [ reflexivity | constructor ].
  - reflexivity.
  - reflexivity.
  - reflexivity.
Defined.

(** C10. With a freshness factor of at least 0.85 the score before rounding
    and capping is at least 0.285, so clamping it to the unit interval only
    ever applies the upper bound: the lower bound of the clamp changes
    neither the raw score nor the rounded score the code caps at one. *)
Theorem raw_score_at_least_0285 (l : Listing.t) (lat lng : R) (r : Account.t) (ff : R) :
  85 / 100 <= ff ->
  let raw := raw_score (recipient_dist lat lng r) (type_match l) ff in
  285 / 1000 <= raw
  /\ clamp01 raw = Rmin 1 raw
  /\ Rmax 0 (py_min 1 (py_round raw 3)) = py_min 1 (py_round raw 3).
Proof.
  intros Hff raw. unfold raw. rewrite type_match_matched.
  pose proof (raw_score_lower_bound (recipient_dist lat lng r) ff Hff) as Hraw.
  split; [ exact Hraw | ].
  split.
  - unfold clamp01. apply Rmax_right. apply Rmin_glb; lra.
  - apply Rmax_right. rewrite py_min_Rmin. apply Rmin_glb; [ lra | ].
    apply py_round_nonneg. lra.
Qed.

Lemma raw_score_at_least_0285_witness :
  let raw := raw_score (recipient_dist 0 0 Sample.pantry) (type_match Sample.bread)
                       (85 / 100) in
  285 / 1000 <= raw
  /\ clamp01 raw = Rmin 1 raw
  /\ Rmax 0 (py_min 1 (py_round raw 3)) = py_min 1 (py_round raw 3).
Proof.
  apply (raw_score_at_least_0285 Sample.bread 0 0 Sample.pantry (85 / 100)).
  lra.
Defined.

(** * Further properties of the code *)

(** ** The distance primitive *)

Section DistanceMore.

Lemma atan2_le_PI2 y x : 0 <= y -> 0 <= x -> atan2 y x <= PI / 2.
Proof.
  intros Hy Hx. unfold atan2.
  pose proof PI_RGT_0 as Hpi.
  destruct (Rltb 0 x) eqn:E1.
  - left. apply atan_bound.
  - destruct (Rltb x 0) eqn:E2.
    + apply Rltb_true in E2. lra.
    + destruct (Rltb 0 y); [ lra | ].
      destruct (Rltb y 0); lra.
Qed.

Lemma sin_sqr_abs x : sin (Rabs x) ^ 2 = sin x ^ 2.
Proof.
  unfold Rabs. destruct (Rcase_abs x); [ rewrite sin_neg; ring | reflexivity ].
Qed.

Lemma atan2_sin_cos x : 0 <= x <= PI / 2 -> atan2 (sin x) (cos x) = x.
Proof.
  intros [Hlo Hhi]. pose proof PI_RGT_0 as Hpi. unfold atan2.
  destruct Hhi as [Hlt | ->].
  - assert (Hc : 0 < cos x) by (apply cos_gt_0; lra).
    replace (Rltb 0 (cos x)) with true by (symmetry; now apply Rltb_true).
    change (sin x / cos x) with (tan x). apply atan_tan. lra.
  - rewrite cos_PI2, sin_PI2.
    replace (Rltb 0 0) with false by (symmetry; apply Rltb_false; lra).
    replace (Rltb 0 1) with true by (symmetry; apply Rltb_true; lra).
    reflexivity.
Qed.

End DistanceMore.

(** X1. The distance from a point to itself is zero. *)
Theorem haversine_km_self (lat lon : R) : haversine_km lat lon lat lon = 0.
Proof. apply haversine_km_same. Qed.

(** X2. A distance is never negative and never more than half the
    circumference of the sphere of radius 6371 km. *)
Theorem haversine_km_range (lat1 lon1 lat2 lon2 : R) :
  0 <= haversine_km lat1 lon1 lat2 lon2 <= 6371 * PI.
Proof.
  split; [ apply haversine_km_nonneg | ].
  rewrite haversine_km_unfold.
  pose proof (atan2_le_PI2 _ _ (sqrt_pos (haversine_a lat1 lon1 lat2 lon2))
                (sqrt_pos (1 - haversine_a lat1 lon1 lat2 lon2))).
  lra.
Qed.

(** X4. Between two points of the same longitude whose latitudes are at
    most 180 degrees apart the distance is the length of the meridian arc,
    6371 km times the latitude gap in radians. *)
Theorem haversine_km_meridian (lat1 lat2 lon : R) :
  Rabs (lat2 - lat1) <= 180 ->
  haversine_km lat1 lon lat2 lon = 6371 * radians (Rabs (lat2 - lat1)).
Proof.
  intros Hgap. pose proof PI_RGT_0 as Hpi.
  pose proof (Rabs_pos (lat2 - lat1)) as Habs.
  rewrite haversine_km_unfold.
  set (x := radians (Rabs (lat2 - lat1)) / 2).
  assert (Hx : 0 <= x <= PI / 2) by (unfold x, radians; split; nra).
  assert (Ha : haversine_a lat1 lon lat2 lon = sin x ^ 2).
  { unfold haversine_a.
    replace (radians (lon - lon) / 2) with 0 by (unfold radians; field).
    rewrite sin_0.
    replace x with (Rabs (radians (lat2 - lat1) / 2)).
    - rewrite sin_sqr_abs. ring.
    - unfold x, radians.
      unfold Rdiv. rewrite !Rabs_mult.
      rewrite (Rabs_pos_eq PI) by lra.
      rewrite (Rabs_pos_eq (/ 180)) by lra.
      rewrite (Rabs_pos_eq (/ 2)) by lra. reflexivity. }
  rewrite Ha.
  assert (Hsin : 0 <= sin x) by (apply sin_ge_0; lra).
  assert (Hcos : 0 <= cos x) by (apply cos_ge_0; lra).
  replace (1 - sin x ^ 2) with (cos x ^ 2).
  2:{ pose proof (sin2_cos2 x) as H. unfold Rsqr in H. nra. }
  rewrite !sqrt_pow2 by assumption.
  rewrite atan2_sin_cos by assumption.
  unfold x. field.
Qed.

Lemma haversine_km_meridian_witness :
  haversine_km (-90) 0 90 0 = 6371 * radians (Rabs (90 - -90)).
Proof.
  apply (haversine_km_meridian (-90) 90 0).
  replace (90 - -90) with 180 by ring.
  rewrite Rabs_pos_eq; lra.
Defined.

(** ** The search *)

Section SearchMore.

(** The loop is a filter followed by a map. *)
Lemma nearby_loop_filter lat lng radius_km now docs :
  forall results,
    nearby_loop lat lng radius_km now docs results
    = results ++ map (item_of lat lng) (filter (eligible lat lng radius_km now) docs).
Proof.
  induction docs as [ | l rest IH ]; intros results.
  - simpl. now rewrite app_nil_r.
  - cbn [nearby_loop filter]. unfold eligible at 1.
    destruct (expired l now); cbn [negb andb].
    + apply IH.
    + change (haversine_km lat lng (get_default (Listing.lat l) 0)
                                   (get_default (Listing.lng l) 0))
        with (search_dist lat lng l).
      destruct (Rleb (search_dist lat lng l) radius_km
                && match Listing.status l with
                   | Some s => str_in s ["available"; "claimed"]%string
                   | None => false
                   end).
      * rewrite IH, <- app_assoc. reflexivity.
      * apply IH.
Qed.

Lemma nearby_results lat lng radius_km now db :
  let found := map (item_of lat lng)
                   (filter (eligible lat lng radius_km now) (listing db)) in
  nearby_listings lat lng radius_km now db
  = {| count := List.length (list_sort Rltb it_distance_km found);
       items := firstn 100 (list_sort Rltb it_distance_km found) |}.
Proof.
  unfold nearby_listings, get_documents_listing.
  now rewrite nearby_loop_filter.
Qed.

Lemma nearby_count lat lng radius_km now db :
  count (nearby_listings lat lng radius_km now db)
  = List.length (filter (eligible lat lng radius_km now) (listing db)).
Proof.
  rewrite nearby_results. cbn [count].
  now rewrite list_sort_length, length_map.
Qed.

Lemma nearby_items_In lat lng radius_km now db x :
  In x (items (nearby_listings lat lng radius_km now db)) ->
  exists l, x = item_of lat lng l /\ In l (listing db)
            /\ eligible lat lng radius_km now l = true.
Proof.
  rewrite nearby_results. cbn [items]. intros Hx.
  apply In_firstn in Hx.
  apply (proj1 (list_sort_In Rltb it_distance_km _ _)) in Hx.
  apply in_map_iff in Hx. destruct Hx as (l & <- & Hl).
  apply filter_In in Hl. exists l. tauto.
Qed.

Lemma filter_length_le {A} (f g : A -> bool) (l : list A) :
  (forall x, f x = true -> g x = true) ->
  (List.length (filter f l) <= List.length (filter g l))%nat.
Proof.
  intros Hfg. induction l as [ | x l IH ]; simpl; [ lia | ].
  destruct (f x) eqn:Ef.
  - rewrite (Hfg x Ef). simpl. lia.
  - destruct (g x); simpl; lia.
Qed.

Lemma firstn_all_length {A} n (l : list A) :
  (List.length l <= n)%nat -> firstn n l = l.
Proof.
  revert l; induction n as [ | n IH ]; intros [ | x l ]; simpl; intros H;
    try reflexivity; try lia.
  f_equal. apply IH. lia.
Qed.

End SearchMore.

(** X5. Every listing the search returns is a stored listing that has not
    expired at the time of the query (it has no expiry, or one that is not
    before [now]) and whose status is "available" or "claimed"; the id of
    the item is the listing's id as a string. *)
Theorem nearby_listings_eligible (lat lng radius_km : R) (now : Z) (db : Store)
    (x : NearbyItem) :
  In x (items (nearby_listings lat lng radius_km now db)) ->
  In (it x) (listing db)
  /\ it_id x = str (Listing._id (it x))
  /\ match Listing.expires_at (it x) with
     | Some t => (now <= t)%Z
     | None => True
     end
  /\ (Listing.status (it x) = Some "available"%string
      \/ Listing.status (it x) = Some "claimed"%string).
Proof.
  intros Hx. apply nearby_items_In in Hx. destruct Hx as (l & -> & Hl & He).
  cbn [it it_id item_of].
  unfold eligible, expired in He.
  apply andb_true_iff in He. destruct He as [Hexp He].
  apply andb_true_iff in He. destruct He as [_ Hst].
  repeat split; try assumption.
  - destruct (Listing.expires_at l) as [ t | ]; [ | exact I ].
    apply negb_true_iff, Z.ltb_ge in Hexp. exact Hexp.
  - destruct (Listing.status l) as [ s | ]; [ | discriminate ].
    unfold str_in in Hst. simpl in Hst.
    rewrite !orb_true_iff in Hst.
    destruct Hst as [ H | [ H | H ] ]; [ | | discriminate ];
      apply String.eqb_eq in H; subst; auto.
Qed.

Lemma nearby_listings_eligible_witness :
  In (it Sample.rice_item) (listing Sample.db_east)
  /\ it_id Sample.rice_item = str (Listing._id (it Sample.rice_item))
  /\ match Listing.expires_at (it Sample.rice_item) with
     | Some t => (0 <= t)%Z
     | None => True
     end
  /\ (Listing.status (it Sample.rice_item) = Some "available"%string
      \/ Listing.status (it Sample.rice_item) = Some "claimed"%string).
Proof.
  apply (nearby_listings_eligible 0 0 (999 / 1000) 0%Z Sample.db_east Sample.rice_item).
  rewrite nearby_rice. left. reflexivity.
Defined.

(** X6. The items of the search come in non-decreasing order of their
    [distance_km]. *)
Theorem nearby_listings_sorted (lat lng radius_km : R) (now : Z) (db : Store) :
  StronglySorted (fun a b => it_distance_km a <= it_distance_km b)
                 (items (nearby_listings lat lng radius_km now db)).
Proof.
  unfold nearby_listings. cbn [items].
  apply StronglySorted_firstn.
  apply (StronglySorted_weaken (not_after Rltb it_distance_km)).
  - intros a b. unfold not_after. now rewrite Rltb_false.
  - apply list_sort_sorted; [ apply Rltb_asym | apply Rltb_ge_trans ].
Qed.

(** X7. [count] is the number of stored listings that pass the filter
    (unexpired, within the radius, status available or claimed), and the
    items are the first [min(100, count)] of them: never more than 100. *)
Theorem nearby_listings_count (lat lng radius_km : R) (now : Z) (db : Store) :
  count (nearby_listings lat lng radius_km now db)
  = List.length (filter (eligible lat lng radius_km now) (listing db))
  /\ List.length (items (nearby_listings lat lng radius_km now db))
     = Nat.min 100 (count (nearby_listings lat lng radius_km now db))
  /\ (List.length (items (nearby_listings lat lng radius_km now db)) <= 100)%nat.
Proof.
  split; [ apply nearby_count | ].
  unfold nearby_listings. cbn [items count].
  rewrite length_firstn. split; [ reflexivity | apply Nat.le_min_l ].
Qed.

(** X8. When at most 100 listings pass the filter, none is left out: every
    stored listing that is unexpired, within the radius and of status
    available or claimed is among the items, with its distance rounded to
    two decimals. *)
Theorem nearby_listings_complete (lat lng radius_km : R) (now : Z) (db : Store)
    (l : Listing.t) :
  (count (nearby_listings lat lng radius_km now db) <= 100)%nat ->
  In l (listing db) ->
  eligible lat lng radius_km now l = true ->
  In {| it := l; it_id := str (Listing._id l);
        it_distance_km := py_round (haversine_km lat lng (listing_lat l) (listing_lng l)) 2 |}
     (items (nearby_listings lat lng radius_km now db)).
Proof.
  intros Hc Hl He.
  rewrite nearby_results in *. cbn [items count] in *.
  rewrite firstn_all_length by exact Hc.
  apply (proj2 (list_sort_In Rltb it_distance_km _ _)).
  apply in_map_iff. exists l. split; [ reflexivity | ].
  apply filter_In. now split.
Qed.

(** X9. A negative radius finds nothing, whatever the store holds. *)
Theorem nearby_listings_negative_radius (lat lng radius_km : R) (now : Z) (db : Store) :
  radius_km < 0 ->
  nearby_listings lat lng radius_km now db = {| count := 0; items := [] |}.
Proof.
  intros Hr. rewrite nearby_results.
  assert (Hnone : filter (eligible lat lng radius_km now) (listing db) = []).
  { induction (listing db) as [ | l ls IH ]; simpl; [ reflexivity | ].
    replace (eligible lat lng radius_km now l) with false; [ exact IH | ].
    symmetry. unfold eligible.
    replace (Rleb (search_dist lat lng l) radius_km) with false.
    - now rewrite andb_false_r.
    - symmetry. apply Rleb_false.
      pose proof (haversine_km_nonneg lat lng (listing_lat l) (listing_lng l)).
      unfold search_dist. lra. }
  rewrite Hnone. reflexivity.
Qed.

Lemma nearby_listings_negative_radius_witness :
  nearby_listings 0 0 (-1) 0%Z Sample.db_east = {| count := 0; items := [] |}.
Proof.
  apply (nearby_listings_negative_radius 0 0 (-1) 0%Z Sample.db_east). lra.
Defined.

(** X10. Widening the radius never loses a listing: the count for a
    smaller radius is at most the count for a larger one. *)
Theorem nearby_listings_radius_mono (lat lng r1 r2 : R) (now : Z) (db : Store) :
  r1 <= r2 ->
  (count (nearby_listings lat lng r1 now db)
   <= count (nearby_listings lat lng r2 now db))%nat.
Proof.
  intros Hr. rewrite !nearby_count.
  apply filter_length_le. intros l. unfold eligible.
  rewrite !andb_true_iff, !Rleb_true. intros (H1 & H2 & H3).
  repeat split; try assumption. lra.
Qed.

Lemma nearby_listings_radius_mono_witness :
  (count (nearby_listings 0 0 (999 / 1000) 0%Z Sample.db_east)
   <= count (nearby_listings 0 0 10 0%Z Sample.db_east))%nat.
Proof.
  apply (nearby_listings_radius_mono 0 0 (999 / 1000) 10 0%Z Sample.db_east). lra.
Defined.

Lemma rice_eligible now : eligible 0 0 (999 / 1000) now Sample.rice = true.
Proof.
  unfold eligible.
  replace (Rleb (search_dist 0 0 Sample.rice) (999 / 1000)) with true.
  - reflexivity.
  - symmetry. apply Rleb_true. pose proof rice_dist_bounds. lra.
Qed.

Lemma nearby_listings_complete_witness :
  In {| it := Sample.rice; it_id := str (Listing._id Sample.rice);
        it_distance_km :=
          py_round (haversine_km 0 0 (listing_lat Sample.rice) (listing_lng Sample.rice)) 2 |}
     (items (nearby_listings 0 0 (999 / 1000) 0%Z Sample.db_east)).
Proof.
  apply (nearby_listings_complete 0 0 (999 / 1000) 0%Z Sample.db_east Sample.rice).
  - rewrite nearby_count. cbn [listing Sample.db_east filter].
    rewrite rice_eligible. simpl. lia.
  - left. reflexivity.
  - apply rice_eligible.
Defined.

(** ** The matcher *)

Section MatcherMore.

(** What the loop leaves behind, whether it ends or a model is rejected on
    the way: the records written so far, each built from one of the
    recipients and valid, appended to the match collection. *)
Lemma match_loop_written l lat lng rs rng :
  forall i acc db,
  exists new,
    snd (match_loop l lat lng rs rng i acc db)
    = with_matches db (match_ db ++ new) (minted db + N.of_nat (List.length new))%N
    /\ Forall (fun d => exists r ff, In r rs
                                     /\ fields d = match_fields l lat lng r ff
                                     /\ Match.valid (fields d) = true) new
    /\ (List.length new <= List.length rs)%nat
    /\ (forall ms, fst (match_loop l lat lng rs rng i acc db) = Return ms ->
                   ms = acc ++ new /\ List.length new = List.length rs).
Proof.
  induction rs as [ | r rs IH ]; intros i acc db.
  - exists []. cbn. rewrite app_nil_r, N.add_0_r.
    repeat split; try constructor.
    + now destruct db.
    + injection H as <-. now rewrite app_nil_r.
  - cbn [match_loop]. unfold bind at 1, lift, match_for, Match_new.
    destruct (Match.valid (match_fields l lat lng r (rng i))) eqn:Ev.
    + unfold bind at 1, create_document_match.
      match goal with
      | |- context [ match_loop l lat lng rs rng (S i) ?acc' ?db' ] =>
          destruct (IH (S i) acc' db') as (new & Hs & Hall & Hlen & Hret)
      end.
      exists ({| _id := hex_digits 24 (minted db);
                 fields := match_fields l lat lng r (rng i) |} :: new).
      repeat split.
      * rewrite Hs. unfold with_matches. cbn [listing account match_ minted].
        rewrite <- app_assoc. cbn [app List.length].
        f_equal. rewrite Nat2N.inj_succ. lia.
      * constructor.
        -- exists r, (rng i). cbn [fields]. repeat split; [ now left | exact Ev ].
        -- eapply Forall_impl; [ | exact Hall ].
           intros d (r' & ff & Hin & Hf & Hv). exists r', ff.
           repeat split; [ now right | exact Hf | exact Hv ].
      * cbn [List.length]. lia.
      * destruct (Hret ms H) as [-> _]. rewrite <- app_assoc. reflexivity.
      * destruct (Hret ms H) as [_ E]. cbn [List.length]. now rewrite E.
    + exists []. cbn. rewrite app_nil_r, N.add_0_r.
      repeat split; try constructor; try lia; try discriminate.
      now destruct db.
Qed.

(** The same for the whole handler. *)
Lemma compute_match_written req rng db :
  exists new,
    snd (compute_match req rng db)
    = with_matches db (match_ db ++ new) (minted db + N.of_nat (List.length new))%N
    /\ (List.length new <= List.length (find_recipients db))%nat
    /\ (new <> [] -> exists l, resolve db (req_listing_id req) = Some l
          /\ Forall (fun d => exists r ff,
                        In r (find_recipients db)
                        /\ fields d = match_fields l (listing_lat l) (listing_lng l) r ff
                        /\ Match.valid (fields d) = true) new).
Proof.
  assert (Hnone : forall P : list MatchDoc -> Prop, exists new : list MatchDoc,
            db = with_matches db (match_ db ++ new) (minted db + N.of_nat (List.length new))%N
            /\ (List.length new <= List.length (find_recipients db))%nat
            /\ (new <> [] -> P new)).
  { intros P. exists []. cbn. rewrite app_nil_r, N.add_0_r.
    repeat split; [ now destruct db | lia | congruence ]. }
  unfold compute_match, resolve.
  destruct (ObjectId_of_str (req_listing_id req)) as [ oid | ]; [ | exact (Hnone _) ].
  destruct (find_one db oid) as [ l | ] eqn:Ef; [ | exact (Hnone _) ].
  destruct (find_recipients db) as [ | r rs ] eqn:Er; [ exact (Hnone _) | ].
  clear Hnone. unfold bind.
  destruct (match_loop_written l (listing_lat l) (listing_lng l) (r :: rs) rng 0 [] db)
    as (new & Hs & Hall & Hlen & _).
  change (get_default (Listing.lat l) 0) with (listing_lat l).
  change (get_default (Listing.lng l) 0) with (listing_lng l).
  destruct (match_loop l (listing_lat l) (listing_lng l) (r :: rs) rng 0 [] db)
    as [ [ ms | e ] db0 ]; cbn [snd] in *; exists new;
    (split; [ exact Hs | split; [ exact Hlen | intros _; exists l; now split ] ]).
Qed.


Lemma py_round_thousandths z : py_round (IZR z / 1000) 3 = IZR z / 1000.
Proof.
  replace (IZR z / 1000) with (IZR z / 10 ^ 3) at 2 by (simpl; field).
  apply py_round_unique. simpl.
  replace (IZR z / 1000 * (10 * (10 * (10 * 1)))) with (IZR z) by field.
  lra.
Qed.

End MatcherMore.

(** X11. Whatever the request, the draws and the outcome, the matcher
    leaves the listings and the accounts as they are and only appends to
    the match collection, at most one record per active recipient: records
    written before are neither removed nor changed, also when the request
    fails. *)
Theorem compute_match_frame (req : MatchRequest) (rng : nat -> R) (db : Store) :
  listing (snd (compute_match req rng db)) = listing db
  /\ account (snd (compute_match req rng db)) = account db
  /\ exists new,
       match_ (snd (compute_match req rng db)) = match_ db ++ new
       /\ (List.length new <= List.length (find_recipients db))%nat.
Proof.
  destruct (compute_match_written req rng db) as (new & Hs & Hlen & _).
  rewrite Hs. cbn. repeat split. exists new. now split.
Qed.

(** X12. Every record the matcher writes, whatever the draws, carries the
    id of a stored listing and the id of a stored account with role
    "recipient" and the active flag set, has status [proposed], a score in
    [0, 1], a distance that is not negative and an ETA of at least five
    minutes. *)
Theorem compute_match_records (req : MatchRequest) (rng : nat -> R) (db : Store) :
  exists new,
    match_ (snd (compute_match req rng db)) = match_ db ++ new
    /\ Forall (fun d =>
         (exists l, In l (listing db)
                    /\ Match.listing_id (fields d) = str (Listing._id l))
         /\ (exists a, In a (account db)
                       /\ Account.role a = "recipient"%string
                       /\ Account.is_active a = true
                       /\ Match.recipient_id (fields d) = str (Account._id a))
         /\ Match.status (fields d) = Match.proposed
         /\ 0 <= Match.score (fields d) <= 1
         /\ 0 <= Match.distance_km (fields d)
         /\ 5 <= Match.route_eta_min (fields d)) new.
Proof.
  destruct (compute_match_written req rng db) as (new & Hs & _ & Hall).
  exists new. split; [ now rewrite Hs | ].
  destruct new as [ | d0 new0 ]; [ constructor | ].
  destruct Hall as (l & Hl & Hall); [ discriminate | ].
  assert (Hin : In l (listing db)).
  { unfold resolve in Hl.
    destruct (ObjectId_of_str (req_listing_id req)) as [ oid | ]; [ | discriminate ].
    unfold find_one in Hl. apply find_some in Hl. tauto. }
  eapply Forall_impl; [ | exact Hall ].
  intros d (r & ff & Hr & Hf & Hv).
  unfold find_recipients in Hr. apply filter_In in Hr. destruct Hr as [Hacc Hrole].
  apply andb_true_iff in Hrole. destruct Hrole as [Hrole Hact].
  apply String.eqb_eq in Hrole.
  unfold Match.valid in Hv. rewrite !andb_true_iff, !Rleb_true in Hv.
  destruct Hv as (((Hs0 & Hs1) & Hd) & _).
  repeat split; try assumption.
  - exists l. split; [ exact Hin | now rewrite Hf ].
  - exists r. repeat split; try assumption. now rewrite Hf.
  - now rewrite Hf.
  - rewrite Hf. cbn [Match.route_eta_min match_fields].
    apply Rle_trans with (py_round 5 1).
    + rewrite (py_round_IZR 5 1). lra.
    + apply py_round_mono, py_max_lb_l.
Qed.





(** X15. A recipient at the place of the listing (a recipient without
    coordinates counts as being at (0, 0)) gets distance 0, the floor ETA
    of 5 minutes and the score
    [min(1, round(1.0 * 0.7 + 1.0 * 0.2 + freshness * 0.1, 3))], the
    expression of the source with the distance factor at its full 1.0. *)
Theorem match_fields_same_place (l : Listing.t) (lat lng : R) (r : Account.t) (ff : R) :
  py_or (Account.lat r) 0 = lat ->
  py_or (Account.lng r) 0 = lng ->
  Match.distance_km (match_fields l lat lng r ff) = 0
  /\ Match.route_eta_min (match_fields l lat lng r ff) = 5
  /\ Match.score (match_fields l lat lng r ff)
     = py_min 1 (py_round (1 * (7 / 10) + 1 * (2 / 10) + ff * (1 / 10)) 3).
Proof.
  intros Hlat Hlng.
  assert (Hd : recipient_dist lat lng r = 0).
  { unfold recipient_dist. rewrite Hlat, Hlng. apply haversine_km_same. }
  cbn [Match.distance_km Match.route_eta_min Match.score match_fields].
  rewrite Hd, type_match_matched. unfold raw_score.
  rewrite !py_max_Rmax.
  replace (0 / 40 * 60) with 0 by field.
  replace (1 - 0 / 20) with 1 by field.
  rewrite (Rmax_left 5 0) by lra. rewrite (Rmax_right 0 1) by lra.
  rewrite py_round_0, (py_round_IZR 5 1).
  repeat split.
Qed.

Lemma match_fields_same_place_witness :
  Match.distance_km (match_fields Sample.bread 0 0 Sample.pantry (9 / 10)) = 0
  /\ Match.route_eta_min (match_fields Sample.bread 0 0 Sample.pantry (9 / 10)) = 5
  /\ Match.score (match_fields Sample.bread 0 0 Sample.pantry (9 / 10))
     = py_min 1 (py_round (1 * (7 / 10) + 1 * (2 / 10) + 9 / 10 * (1 / 10)) 3).
Proof.
  apply (match_fields_same_place Sample.bread 0 0 Sample.pantry (9 / 10));
    reflexivity.
Defined.

(** X16. Nearer is never worse: for the same listing and the same
    freshness draw, the recipient at the smaller distance gets a score at
    least as high. *)
Theorem match_score_nearer_better (l : Listing.t) (lat lng : R)
    (r1 r2 : Account.t) (ff : R) :
  recipient_dist lat lng r1 <= recipient_dist lat lng r2 ->
  Match.score (match_fields l lat lng r2 ff) <= Match.score (match_fields l lat lng r1 ff).
Proof.
  intros Hd. cbn [Match.score match_fields].
  rewrite !py_min_Rmin. apply Rle_min_compat_l.
  apply py_round_mono. unfold raw_score.
  rewrite !py_max_Rmax.
  assert (Rmax 0 (1 - recipient_dist lat lng r2 / 20)
          <= Rmax 0 (1 - recipient_dist lat lng r1 / 20)).
  { apply Rle_max_compat_l. lra. }
  lra.
Qed.

Lemma match_score_nearer_better_witness :
  Match.score (match_fields Sample.bread 0 0 Sample.pantry (9 / 10))
  <= Match.score (match_fields Sample.bread 0 0 Sample.shelter (9 / 10)).
Proof.
  apply (match_score_nearer_better Sample.bread 0 0 Sample.shelter Sample.pantry (9 / 10)).
  unfold recipient_dist, py_or; simpl.
  rewrite !Reqb_refl. lra.
Defined.

(** X17. From 20 km on the distance no longer counts: with a freshness draw
    in [0.85, 1.0] every recipient at 20 km or more scores
    [round(0.2 + 0.1 * freshness, 3)], a number between 0.285 and 0.3. *)
Theorem match_score_far (l : Listing.t) (lat lng : R) (r : Account.t) (ff : R) :
  20 <= recipient_dist lat lng r ->
  85 / 100 <= ff <= 1 ->
  Match.score (match_fields l lat lng r ff) = py_round (2 / 10 + ff / 10) 3
  /\ 285 / 1000 <= Match.score (match_fields l lat lng r ff) <= 3 / 10.
Proof.
  intros Hd [Hlo Hhi]. cbn [Match.score match_fields].
  rewrite type_match_matched. unfold raw_score.
  rewrite py_max_Rmax, Rmax_left by lra.
  replace (0 * (7 / 10) + 1 * (2 / 10) + ff * (1 / 10)) with (2 / 10 + ff / 10) by field.
  assert (Hr : 285 / 1000 <= py_round (2 / 10 + ff / 10) 3 <= 3 / 10).
  { split.
    - rewrite <- (py_round_thousandths 285). apply py_round_mono. lra.
    - replace (3 / 10) with (300 / 1000) by field.
      rewrite <- (py_round_thousandths 300). apply py_round_mono. lra. }
  rewrite py_min_Rmin, Rmin_right by lra.
  split; [ reflexivity | exact Hr ].
Qed.

Lemma far_kitchen_dist : 20 <= recipient_dist 0 0 Sample2.far_kitchen.
Proof.
  unfold recipient_dist, py_or; simpl.
  rewrite Reqb_refl.
  replace (Reqb 1 0) with false.
  - rewrite haversine_km_equator by lra. unfold radians.
    pose proof PI_bounds as [Hlo _]. lra.
  - symmetry. destruct (Reqb 1 0) eqn:E; [ apply Reqb_true in E; lra | reflexivity ].
Qed.

Lemma match_score_far_witness :
  Match.score (match_fields Sample.bread 0 0 Sample2.far_kitchen (9 / 10))
  = py_round (2 / 10 + 9 / 10 / 10) 3
  /\ 285 / 1000
     <= Match.score (match_fields Sample.bread 0 0 Sample2.far_kitchen (9 / 10))
     <= 3 / 10.
Proof.
  apply (match_score_far Sample.bread 0 0 Sample2.far_kitchen (9 / 10)).
  - apply far_kitchen_dist.
  - split; lra.
Defined.

(** ** Creating a listing *)

Section CreateListingFacts.

Lemma Listing_valid_true q lat lng :
  Listing_valid q lat lng = true
  <-> 0 < q /\ -90 <= lat <= 90 /\ -180 <= lng <= 180.
Proof.
  unfold Listing_valid.
  rewrite !andb_true_iff, Rltb_true, !Rleb_true. tauto.
Qed.

Lemma create_listing_ok now req db delta e :
  timedelta_minutes (minutes_or_default (clr_expires_in_minutes req)) = Some delta ->
  datetime_add now delta = Some e ->
  Listing_valid (clr_quantity req) (clr_lat req) (clr_lng req) = true ->
  create_listing now req db
  = (inr (hex_digits 24 (minted db)),
     snd (create_document_listing (clr_donor_id req) (clr_type req)
            (clr_quantity req) (clr_lat req) (clr_lng req) e "available" db)).
Proof.
  intros Ht Hd Hv. unfold create_listing. rewrite Ht, Hd, Hv. reflexivity.
Qed.

Lemma soup_valid : Listing_valid 4 10 20 = true.
Proof. apply Listing_valid_true. lra. Qed.

Lemma create_soup now db :
  (0 <= now <= 2000000000000000)%Z ->
  create_listing now Sample2.soup db
  = (inr (hex_digits 24 (minted db)),
     snd (create_document_listing "donor-1" "soup" 4 10 20 (now + 180 * MINUTE)
            "available" db)).
Proof.
  intros Hnow.
  apply (create_listing_ok now Sample2.soup db (180 * MINUTE)%Z).
  - reflexivity.
  - unfold datetime_add.
    replace (datetime_min <=? now + 180 * MINUTE)%Z with true
      by (symmetry; apply Z.leb_le; unfold datetime_min, MINUTE; lia).
    replace (now + 180 * MINUTE <=? datetime_max)%Z with true
      by (symmetry; apply Z.leb_le; unfold datetime_max, MINUTE; lia).
    reflexivity.
  - exact soup_valid.
Qed.

Lemma create_stale_soup now db :
  (0 <= now <= 2000000000000000)%Z ->
  create_listing now Sample2.stale_soup db
  = (inr (hex_digits 24 (minted db)),
     snd (create_document_listing "donor-1" "soup" 4 10 20 (now + -5 * MINUTE)
            "available" db)).
Proof.
  intros Hnow.
  apply (create_listing_ok now Sample2.stale_soup db (-5 * MINUTE)%Z).
  - reflexivity.
  - unfold datetime_add.
    replace (datetime_min <=? now + -5 * MINUTE)%Z with true
      by (symmetry; apply Z.leb_le; unfold datetime_min, MINUTE; lia).
    replace (now + -5 * MINUTE <=? datetime_max)%Z with true
      by (symmetry; apply Z.leb_le; unfold datetime_max, MINUTE; lia).
    reflexivity.
  - exact soup_valid.
Qed.

(** What a successful call has done. *)
Lemma create_listing_inr now req db lid :
  fst (create_listing now req db) = inr lid ->
  let e := (now + minutes_or_default (clr_expires_in_minutes req) * MINUTE)%Z in
  Listing_valid (clr_quantity req) (clr_lat req) (clr_lng req) = true
  /\ create_listing now req db
     = (inr lid,
        snd (create_document_listing (clr_donor_id req) (clr_type req)
               (clr_quantity req) (clr_lat req) (clr_lng req) e "available" db))
  /\ lid = hex_digits 24 (minted db).
Proof.
  unfold create_listing, timedelta_minutes, datetime_add.
  destruct ((-999999999 <=? minutes_or_default (clr_expires_in_minutes req) / 1440)
            && (minutes_or_default (clr_expires_in_minutes req) / 1440 <=? 999999999))%Z;
    [ | discriminate ].
  destruct ((datetime_min <=? now + minutes_or_default (clr_expires_in_minutes req) * MINUTE)
            && (now + minutes_or_default (clr_expires_in_minutes req) * MINUTE
                <=? datetime_max))%Z; [ | discriminate ].
  destruct (Listing_valid (clr_quantity req) (clr_lat req) (clr_lng req));
    [ | discriminate ].
  cbn. intros H. injection H as <-. auto.
Qed.

Lemma filter_snoc {A} (f : A -> bool) l x :
  filter f (l ++ [x]) = filter f l ++ (if f x then [x] else []).
Proof. rewrite filter_app. reflexivity. Qed.

End CreateListingFacts.

(** X18. A request whose quantity is not positive, or whose latitude is
    outside [-90, 90], or whose longitude is outside [-180, 180], creates
    nothing: the call ends in an error and the store is unchanged. *)
Theorem create_listing_rejects (now : Z) (req : CreateListingRequest) (db : Store) :
  clr_quantity req <= 0
  \/ clr_lat req < -90 \/ 90 < clr_lat req
  \/ clr_lng req < -180 \/ 180 < clr_lng req ->
  exists e, create_listing now req db = (inl e, db).
Proof.
  intros Hbad.
  assert (Hv : Listing_valid (clr_quantity req) (clr_lat req) (clr_lng req) = false).
  { destruct (Listing_valid (clr_quantity req) (clr_lat req) (clr_lng req)) eqn:E;
      [ | reflexivity ].
    apply Listing_valid_true in E. lra. }
  unfold create_listing.
  destruct (timedelta_minutes (minutes_or_default (clr_expires_in_minutes req)));
    [ | now exists OverflowError ].
  destruct (datetime_add now z); [ | now exists OverflowError ].
  rewrite Hv. now exists ListingValidationError.
Qed.

Lemma create_listing_rejects_witness :
  exists e, create_listing 0%Z Sample2.no_soup Sample.db = (inl e, Sample.db).
Proof.
  apply (create_listing_rejects 0%Z Sample2.no_soup Sample.db).
  left. simpl. lra.
Defined.

(** X19. A call that returns an id has appended exactly one listing to the
    store, under that id, with the requested donor, type, quantity and
    coordinates (the quantity positive, the coordinates in range), status
    "available" and an expiry of [expires_in_minutes] minutes after [now],
    or 180 minutes when none or 0 was given; the other listings, the
    accounts and the matches are as before. A call that fails leaves the
    store unchanged. *)
Theorem create_listing_effect (now : Z) (req : CreateListingRequest) (db : Store) :
  match fst (create_listing now req db) with
  | inr lid =>
      exists l,
        listing (snd (create_listing now req db)) = listing db ++ [l]
        /\ account (snd (create_listing now req db)) = account db
        /\ match_ (snd (create_listing now req db)) = match_ db
        /\ str (Listing._id l) = lid
        /\ Listing.donor_id l = Some (clr_donor_id req)
        /\ Listing.type l = Some (clr_type req)
        /\ Listing.quantity l = Some (clr_quantity req)
        /\ Listing.lat l = Some (clr_lat req)
        /\ Listing.lng l = Some (clr_lng req)
        /\ Listing.status l = Some "available"%string
        /\ Listing.expires_at l
           = Some (now + match clr_expires_in_minutes req with
                         | Some 0%Z | None => 180
                         | Some m => m
                         end * 60000000)%Z
        /\ 0 < clr_quantity req
        /\ -90 <= clr_lat req <= 90
        /\ -180 <= clr_lng req <= 180
  | inl _ => snd (create_listing now req db) = db
  end.
Proof.
  destruct (fst (create_listing now req db)) as [ e | lid ] eqn:E.
  - revert E. unfold create_listing.
    destruct (timedelta_minutes _); [ | reflexivity ].
    destruct (datetime_add now z); [ | reflexivity ].
    destruct (Listing_valid _ _ _); [ discriminate | reflexivity ].
  - apply create_listing_inr in E. destruct E as (Hv & Hc & ->).
    apply Listing_valid_true in Hv.
    rewrite Hc. cbn [snd create_document_listing listing account match_].
    eexists. split; [ reflexivity | ].
    cbn. repeat split; try tauto.
    unfold minutes_or_default, MINUTE.
    destruct (clr_expires_in_minutes req) as [ [ | m | m ] | ]; reflexivity.
Qed.

(** X20. A listing just created is found: for a search from its own
    coordinates with any radius that is not negative, at any time up to its
    expiry, the count is one more than on the store before the call. *)
Theorem create_then_nearby (now : Z) (req : CreateListingRequest) (db : Store)
    (lid : string) (radius_km : R) (now' : Z) :
  fst (create_listing now req db) = inr lid ->
  0 <= radius_km ->
  (now' <= now + minutes_or_default (clr_expires_in_minutes req) * MINUTE)%Z ->
  count (nearby_listings (clr_lat req) (clr_lng req) radius_km now'
                         (snd (create_listing now req db)))
  = S (count (nearby_listings (clr_lat req) (clr_lng req) radius_km now' db)).
Proof.
  intros E Hr Hnow. apply create_listing_inr in E. destruct E as (_ & Hc & _).
  rewrite Hc, !nearby_count.
  cbn [snd create_document_listing listing].
  rewrite filter_snoc.
  match goal with
  | |- context [ if ?c then _ else _ ] => replace c with true
  end.
  - rewrite length_app. cbn. lia.
  - symmetry. unfold eligible, expired, search_dist, listing_lat, listing_lng.
    cbn [Listing.expires_at Listing.lat Listing.lng Listing.status get_default].
    rewrite haversine_km_same.
    replace (Rleb 0 radius_km) with true by (symmetry; now apply Rleb_true).
    replace (_ <? now')%Z with false by (symmetry; apply Z.ltb_ge; lia).
    reflexivity.
Qed.

Lemma create_then_nearby_witness :
  count (nearby_listings (clr_lat Sample2.soup) (clr_lng Sample2.soup) 0 100%Z
                         (snd (create_listing 100%Z Sample2.soup Sample.db)))
  = S (count (nearby_listings (clr_lat Sample2.soup) (clr_lng Sample2.soup) 0 100%Z
                              Sample.db)).
Proof.
  apply (create_then_nearby 100%Z Sample2.soup Sample.db
           (hex_digits 24 (minted Sample.db)) 0 100%Z).
  - rewrite create_soup by lia. reflexivity.
  - lra.
  - unfold MINUTE. simpl. lia.
Defined.

(** X21. A negative [expires_in_minutes] is accepted, and the listing it
    creates is expired from the start: no search at the time of the call
    or later counts it. *)
Theorem create_expired_listing (now : Z) (req : CreateListingRequest) (db : Store)
    (lid : string) (m : Z) (lat lng radius_km : R) (now' : Z) :
  clr_expires_in_minutes req = Some m ->
  (m < 0)%Z ->
  fst (create_listing now req db) = inr lid ->
  (now <= now')%Z ->
  count (nearby_listings lat lng radius_km now' (snd (create_listing now req db)))
  = count (nearby_listings lat lng radius_km now' db).
Proof.
  intros Hm Hneg E Hnow. apply create_listing_inr in E. destruct E as (_ & Hc & _).
  rewrite Hc, !nearby_count.
  cbn [snd create_document_listing listing].
  rewrite filter_snoc.
  match goal with
  | |- context [ if ?c then _ else _ ] => replace c with false
  end.
  - now rewrite app_nil_r.
  - symmetry. unfold eligible, expired.
    cbn [Listing.expires_at].
    rewrite Hm. unfold minutes_or_default.
    replace (m =? 0)%Z with false by (symmetry; apply Z.eqb_neq; lia).
    replace (_ <? now')%Z with true
      by (symmetry; apply Z.ltb_lt; unfold MINUTE; lia).
    reflexivity.
Qed.

Lemma create_expired_listing_witness :
  count (nearby_listings 10 20 5 100%Z
           (snd (create_listing 100%Z Sample2.stale_soup Sample.db)))
  = count (nearby_listings 10 20 5 100%Z Sample.db).
Proof.
  apply (create_expired_listing 100%Z Sample2.stale_soup Sample.db
           (hex_digits 24 (minted Sample.db)) (-5)%Z 10 20 5 100%Z).
  - reflexivity.
  - lia.
  - rewrite create_stale_soup by lia. reflexivity.
  - lia.
Defined.

(** ** Listing the matches *)

Section GetMatchesFacts.

Variable created_at : MatchDoc -> option Z.
Variable clock : nat -> Z.

Lemma decorate_snd l : forall i, map snd (decorate created_at clock i l) = l.
Proof.
  induction l as [ | x l IH ]; intros i; simpl; [ reflexivity | now rewrite IH ].
Qed.

Lemma decorate_keys l :
  forall i p, In p (decorate created_at clock i l) ->
              forall t, created_at (snd p) = Some t -> fst p = t.
Proof.
  induction l as [ | x l IH ]; intros i p Hp t Ht; simpl in Hp; [ destruct Hp | ].
  destruct Hp as [ <- | Hp ].
  - simpl in *. now rewrite Ht.
  - now apply (IH (S i)).
Qed.

Lemma sort_reverse_perm l : Permutation (sort_reverse l) l.
Proof.
  unfold sort_reverse.
  eapply perm_trans; [ apply Permutation_sym, Permutation_rev | ].
  eapply perm_trans; [ apply list_sort_perm | ].
  apply Permutation_sym, Permutation_rev.
Qed.

Lemma StronglySorted_snoc {A} (Rel : A -> A -> Prop) l x :
  StronglySorted Rel l -> Forall (fun a => Rel a x) l -> StronglySorted Rel (l ++ [x]).
Proof.
  induction 1 as [ | y l Hs IH Hy ]; intros Hx; simpl.
  - repeat constructor.
  - inversion Hx as [ | ? ? Hyx Hlx ]; subst.
    constructor; [ now apply IH | ].
    apply Forall_app. split; [ exact Hy | now constructor ].
Qed.

Lemma StronglySorted_rev {A} (Rel : A -> A -> Prop) l :
  StronglySorted Rel l -> StronglySorted (fun a b => Rel b a) (rev l).
Proof.
  induction 1 as [ | y l Hs IH Hy ]; simpl; [ constructor | ].
  apply StronglySorted_snoc; [ exact IH | ].
  apply Forall_forall. intros a Ha. apply in_rev in Ha.
  rewrite Forall_forall in Hy. now apply Hy.
Qed.

Lemma sort_reverse_sorted l :
  StronglySorted (fun p q : Z * MatchDoc => (fst q <= fst p)%Z) (sort_reverse l).
Proof.
  unfold sort_reverse.
  apply (StronglySorted_rev (fun p q : Z * MatchDoc => (fst p <= fst q)%Z)).
  apply (StronglySorted_weaken (not_after Z.ltb fst)).
  - intros a b. unfold not_after. now rewrite Z.ltb_ge.
  - apply list_sort_sorted.
    + intros j k. rewrite Z.ltb_lt, Z.ltb_ge. lia.
    + intros i j k. rewrite !Z.ltb_ge. lia.
Qed.

Lemma StronglySorted_map_In {A B} (f : A -> B) (P : A -> A -> Prop)
    (Q : B -> B -> Prop) l :
  (forall a b, In a l -> In b l -> P a b -> Q (f a) (f b)) ->
  StronglySorted P l -> StronglySorted Q (map f l).
Proof.
  intros HPQ Hs. induction Hs as [ | y l Hs IH Hy ]; simpl; constructor.
  - apply IH. intros a b Ha Hb. apply HPQ; now right.
  - apply Forall_forall. intros b Hb. apply in_map_iff in Hb.
    destruct Hb as (a & <- & Ha). rewrite Forall_forall in Hy.
    apply HPQ; [ now left | now right | now apply Hy ].
Qed.

(** The matches a user id selects. *)
Lemma get_matches_eq user_id db :
  exists selected,
    get_matches created_at clock user_id db
    = firstn 100 (map snd (sort_reverse (decorate created_at clock 0 selected)))
    /\ selected = match user_id with
                  | Some (String c u) => filter (involves (String c u)) (match_ db)
                  | _ => match_ db
                  end.
Proof.
  unfold get_matches.
  destruct user_id as [ [ | c u ] | ]; eexists; split; reflexivity.
Qed.

Lemma sorted_docs_perm selected :
  Permutation (map snd (sort_reverse (decorate created_at clock 0 selected))) selected.
Proof.
  rewrite <- (decorate_snd selected 0) at 2.
  apply Permutation_map, sort_reverse_perm.
Qed.

End GetMatchesFacts.

(** X22. With a non-empty user id, every match listed is a stored match in
    which the user is the donor or the recipient, and at most 100 are
    listed. *)
Theorem get_matches_of_user (created_at : MatchDoc -> option Z) (clock : nat -> Z)
    (user_id : string) (db : Store) (m : MatchDoc) :
  user_id <> ""%string ->
  In m (get_matches created_at clock (Some user_id) db) ->
  In m (match_ db)
  /\ (Match.donor_id (fields m) = user_id \/ Match.recipient_id (fields m) = user_id)
  /\ (List.length (get_matches created_at clock (Some user_id) db) <= 100)%nat.
Proof.
  intros Hne Hm.
  destruct (get_matches_eq created_at clock (Some user_id) db) as (sel & Heq & Hsel).
  rewrite Heq in *.
  destruct user_id as [ | c u ]; [ congruence | ].
  split; [ | split; [ | apply firstn_le_length ] ];
    apply In_firstn in Hm;
    apply (Permutation_in _ (sorted_docs_perm created_at clock sel)) in Hm;
    rewrite Hsel in Hm; apply filter_In in Hm; destruct Hm as [Hin Hinv].
  - exact Hin.
  - unfold involves in Hinv. apply orb_true_iff in Hinv.
    destruct Hinv as [ H | H ]; apply String.eqb_eq in H; auto.
Qed.

Lemma get_matches_of_user_witness :
  In (Sample2.a_match "donor-1" "shelter") (match_ Sample2.db_matched)
  /\ (Match.donor_id (fields (Sample2.a_match "donor-1" "shelter")) = "shelter"%string
      \/ Match.recipient_id (fields (Sample2.a_match "donor-1" "shelter"))
         = "shelter"%string)
  /\ (List.length (get_matches Sample2.stamped (fun _ => 0%Z) (Some "shelter"%string)
                               Sample2.db_matched) <= 100)%nat.
Proof.
  apply (get_matches_of_user Sample2.stamped (fun _ => 0%Z) "shelter"
           Sample2.db_matched (Sample2.a_match "donor-1" "shelter")).
  - discriminate.
  - left. reflexivity.
Defined.

(** X23. Without a user id, and also with the empty string as user id, no
    filter applies: when the store holds at most 100 matches, all of them
    are listed, each once. *)
Theorem get_matches_unfiltered (created_at : MatchDoc -> option Z) (clock : nat -> Z)
    (user_id : option string) (db : Store) :
  user_id = None \/ user_id = Some ""%string ->
  (List.length (match_ db) <= 100)%nat ->
  Permutation (get_matches created_at clock user_id db) (match_ db).
Proof.
  intros Hu Hlen.
  destruct (get_matches_eq created_at clock user_id db) as (sel & Heq & Hsel).
  assert (Hall : sel = match_ db) by (destruct Hu as [ -> | -> ]; exact Hsel).
  rewrite Heq, Hall. rewrite firstn_all_length.
  - apply sorted_docs_perm.
  - rewrite (Permutation_length (sorted_docs_perm created_at clock (match_ db))).
    exact Hlen.
Qed.

Lemma get_matches_unfiltered_witness :
  Permutation (get_matches Sample2.stamped (fun _ => 0%Z) (Some ""%string)
                           Sample2.db_matched)
              (match_ Sample2.db_matched).
Proof.
  apply (get_matches_unfiltered Sample2.stamped (fun _ => 0%Z) (Some ""%string)
           Sample2.db_matched).
  - right. reflexivity.
  - simpl. lia.
Defined.

(** X24. The matches are listed newest first: of two listed matches that
    both carry a [created_at], the one listed earlier is not the older. *)
Theorem get_matches_newest_first (created_at : MatchDoc -> option Z) (clock : nat -> Z)
    (user_id : option string) (db : Store) :
  StronglySorted
    (fun a b => forall ta tb, created_at a = Some ta -> created_at b = Some tb ->
                              (tb <= ta)%Z)
    (get_matches created_at clock user_id db).
Proof.
  destruct (get_matches_eq created_at clock user_id db) as (sel & Heq & _).
  rewrite Heq. apply StronglySorted_firstn.
  apply (StronglySorted_map_In snd (fun p q : Z * MatchDoc => (fst q <= fst p)%Z)).
  - intros p q Hp Hq Hle ta tb Ha Hb.
    apply (Permutation_in _ (sort_reverse_perm _)) in Hp, Hq.
    rewrite <- (decorate_keys created_at clock sel 0 p Hp ta Ha).
    rewrite <- (decorate_keys created_at clock sel 0 q Hq tb Hb).
    exact Hle.
  - apply sort_reverse_sorted.
Qed.

(** ** The simulated sensor *)

Section SensorFacts.

Lemma sensor_after_clamped dr k :
  (50 <= freshness (sensor_after dr (S k)))%Z
  /\ (20 <= humidity (sensor_after dr (S k)) <= 90)%Z
  /\ 0 <= temp_c (sensor_after dr (S k)).
Proof.
  cbn [sensor_after sensor_step freshness humidity temp_c].
  repeat split; try lia. apply py_max_lb_l.
Qed.

Lemma sensor_after_freshness_ub dr n :
  sensor_draws_in_range dr ->
  (freshness (sensor_after dr n) <= 99 + Z.of_nat n)%Z.
Proof.
  intros (Hf0 & _ & _ & Hdrift). induction n as [ | n IH ].
  - simpl. lia.
  - cbn [sensor_after sensor_step freshness].
    destruct (Hdrift n) as (Hd & _). lia.
Qed.

Lemma feed_In listing_id dr clock n rd :
  In rd (freshness_feed listing_id dr clock n) ->
  exists k, (k < n)%nat /\ rd = reading listing_id dr clock k.
Proof.
  unfold freshness_feed. intros H. apply in_map_iff in H.
  destruct H as (k & <- & Hk). apply in_seq in Hk. exists k. split; [ lia | reflexivity ].
Qed.

End SensorFacts.

(** X25. Every message of the feed, whatever the generator draws, carries
    the listing id of the connection, a freshness of at least 50, a
    humidity between 20 and 90 and a temperature that is not negative. *)
Theorem freshness_feed_ranges (listing_id : string) (dr : SensorDraws)
    (clock : nat -> Z) (n : nat) (rd : Reading) :
  In rd (freshness_feed listing_id dr clock n) ->
  reading_listing_id rd = listing_id
  /\ (50 <= reading_freshness rd)%Z
  /\ (20 <= reading_humidity rd <= 90)%Z
  /\ 0 <= temperature_c rd.
Proof.
  intros H. apply feed_In in H. destruct H as (k & _ & ->).
  destruct (sensor_after_clamped dr k) as (Hf & Hh & Ht).
  unfold reading. cbn [reading_listing_id reading_freshness reading_humidity temperature_c].
  repeat split; try tauto.
  now apply py_round_nonneg.
Qed.

Lemma freshness_feed_ranges_witness :
  reading_listing_id (reading Sample.bread_id Sample2.steady (fun _ => 0%Z) 0)
  = Sample.bread_id
  /\ (50 <= reading_freshness (reading Sample.bread_id Sample2.steady (fun _ => 0%Z) 0))%Z
  /\ (20 <= reading_humidity (reading Sample.bread_id Sample2.steady (fun _ => 0%Z) 0)
      <= 90)%Z
  /\ 0 <= temperature_c (reading Sample.bread_id Sample2.steady (fun _ => 0%Z) 0).
Proof.
  apply (freshness_feed_ranges Sample.bread_id Sample2.steady (fun _ => 0%Z) 1
           (reading Sample.bread_id Sample2.steady (fun _ => 0%Z) 0)).
  left. reflexivity.
Defined.

(** X26. With draws in the ranges the source asks for, the freshness of
    the [k]-th message (counted from 0) is at most [100 + k], there being
    no upper cap, and from one message to the next the freshness and the
    humidity move by at most 2. *)
Theorem freshness_feed_drift (listing_id : string) (dr : SensorDraws)
    (clock : nat -> Z) (k : nat) :
  sensor_draws_in_range dr ->
  (reading_freshness (reading listing_id dr clock k) <= 100 + Z.of_nat k)%Z
  /\ (Z.abs (reading_freshness (reading listing_id dr clock (S k))
             - reading_freshness (reading listing_id dr clock k)) <= 2)%Z
  /\ (Z.abs (reading_humidity (reading listing_id dr clock (S k))
             - reading_humidity (reading listing_id dr clock k)) <= 2)%Z.
Proof.
  intros Hdr.
  pose proof (sensor_after_freshness_ub dr (S k) Hdr) as Hub.
  destruct (sensor_after_clamped dr k) as (Hf & Hh & _).
  destruct Hdr as (_ & _ & _ & Hdrift).
  destruct (Hdrift (S k)) as (Hdf & _ & Hdh).
  unfold reading. cbn [reading_freshness reading_humidity].
  split; [ lia | ].
  change (sensor_after dr (S (S k)))
    with (sensor_step (sensor_after dr (S k)) (freshness_drift dr (S k))
            (temp_drift dr (S k)) (humidity_drift dr (S k))).
  set (s := sensor_after dr (S k)) in *.
  cbn [sensor_step freshness humidity]. lia.
Qed.

Lemma freshness_feed_drift_witness :
  (reading_freshness (reading Sample.bread_id Sample2.steady (fun _ => 0%Z) 3)
   <= 100 + Z.of_nat 3)%Z
  /\ (Z.abs (reading_freshness (reading Sample.bread_id Sample2.steady (fun _ => 0%Z) 4)
             - reading_freshness (reading Sample.bread_id Sample2.steady (fun _ => 0%Z) 3))
      <= 2)%Z
  /\ (Z.abs (reading_humidity (reading Sample.bread_id Sample2.steady (fun _ => 0%Z) 4)
             - reading_humidity (reading Sample.bread_id Sample2.steady (fun _ => 0%Z) 3))
      <= 2)%Z.
Proof.
  apply (freshness_feed_drift Sample.bread_id Sample2.steady (fun _ => 0%Z) 3).
  unfold sensor_draws_in_range, Sample2.steady; simpl.
  repeat split; try lia; try lra.
Defined.
